(** * pytune_helpers_images: the EXIF GPS extraction pipeline

    A shallow embedding of [src/pytune_helpers_images/exif_gps.py]: key
    resolution, DMS parsing, decimal conversion, the GPS extractor, the
    reverse-geocoding wrapper and service call, the tag reader and the
    image pipeline; of the bucket and object name of [images.py]; and of
    [_sniff_mime_ext] of [image_bytes.py].  The libraries the code calls
    (exifread, requests, the MinIO client) are parameters of the functions
    that use them.

    Python values are an inductive type, [str] is a Rocq [string] whose
    characters are read as the code points U+0000..U+00FF, [float] is
    binary64 (primitive floats), a raised exception is the [Raise] branch of
    the result type, and a [dict] is an association list in insertion order
    (a dict Python can build has no key twice; the statements below do not
    need that). *)

From Stdlib Require Import ZArith List String Ascii Floats Lia Bool.
From Stdlib Require Import DecimalString.
From Stdlib.Strings Require Byte.
From stdpp Require Import gmap strings.
Import ListNotations.

#[local] Open Scope Z_scope.
#[local] Open Scope list_scope.

(** ** Characters and text *)

Module Text.

Definition code (c : ascii) : Z := Z.of_N (N_of_ascii c).

Definition in_range (lo hi : Z) (c : ascii) : bool :=
  (lo <=? code c) && (code c <=? hi).

(** [str.isspace], which is also [\s] of [re] on a [str] pattern:
    TAB..CR, FS..US, SPACE, NEL and NBSP below U+0100. *)
Definition isspace (c : ascii) : bool :=
  in_range 9 13 c || in_range 28 31 c || (code c =? 32) ||
  (code c =? 133) || (code c =? 160).

(** The white space [float()] skips around a literal: the C locale's
    [isspace] and the non-ASCII Unicode spaces; FS..US are not in it. *)
Definition float_space (c : ascii) : bool :=
  in_range 9 13 c || (code c =? 32) || (code c =? 133) || (code c =? 160).

Definition is_digit (c : ascii) : bool := in_range 48 57 c.

Definition shift_code (d : Z) (c : ascii) : ascii :=
  ascii_of_N (Z.to_N (code c + d)).

(** [str.lower] on one code point: A..Z and the Latin-1 capitals. *)
Definition lower_char (c : ascii) : ascii :=
  if in_range 65 90 c || (in_range 192 222 c && negb (code c =? 215))
  then shift_code 32 c else c.

(** [str.upper] on one code point.  U+00DF becomes "SS".  The images of
    U+00B5 and U+00FF lie above U+00FF; they are kept as they are, which
    like their images are neither white space nor a letter S or W. *)
Definition upper_char (c : ascii) : list ascii :=
  if in_range 97 122 c || (in_range 224 254 c && negb (code c =? 247))
  then [shift_code (-32) c]
  else if code c =? 223 then ["S"; "S"]%char
  else [c].

Definition chars (s : string) : list ascii := list_ascii_of_string s.
Definition text (l : list ascii) : string := string_of_list_ascii l.

Fixpoint drop_while {A} (p : A -> bool) (l : list A) : list A :=
  match l with
  | [] => []
  | x :: r => if p x then drop_while p r else l
  end.

Definition lstrip_by (p : ascii -> bool) (l : list ascii) : list ascii :=
  drop_while p l.
Definition rstrip_by (p : ascii -> bool) (l : list ascii) : list ascii :=
  rev (drop_while p (rev l)).
Definition strip_by (p : ascii -> bool) (l : list ascii) : list ascii :=
  rstrip_by p (lstrip_by p l).

Definition one_of (set : string) (c : ascii) : bool :=
  existsb (Ascii.eqb c) (chars set).

(** [s.strip()] *)
Definition strip (s : string) : string := text (strip_by isspace (chars s)).
(** [s.strip(set)] *)
Definition strip_chars (set : string) (s : string) : string :=
  text (strip_by (one_of set) (chars s)).
(** [s.lower()] and [s.upper()] *)
Definition lower (s : string) : string := text (map lower_char (chars s)).
Definition upper (s : string) : string := text (flat_map upper_char (chars s)).

(** [s.split(sep, 1)] when [sep in s]: the text before the first [sep] and
    the text after it; [None] when [sep] does not occur. *)
Fixpoint cut (sep : ascii) (l : list ascii) : option (list ascii * list ascii) :=
  match l with
  | [] => None
  | c :: r =>
      if Ascii.eqb c sep then Some ([], r)
      else match cut sep r with
           | Some (a, b) => Some (c :: a, b)
           | None => None
           end
  end.

Definition split_once (sep : ascii) (s : string) : option (string * string) :=
  match cut sep (chars s) with
  | Some (a, b) => Some (text a, text b)
  | None => None
  end.

(** [re.sub] of the pattern [\s+] by the empty text: every white-space
    character is removed. *)
Definition re_sub_spaces (s : string) : string :=
  text (filter (fun c => negb (isspace c)) (chars s)).

(** [re.split(r"[,\s]+", s)]: the pieces between maximal runs of commas and
    white space, the empty pieces at either end included. *)
Definition is_delim (c : ascii) : bool := Ascii.eqb c "," || isspace c.

Fixpoint re_split_go (l : list ascii) (cur : list ascii) (in_run : bool)
  : list (list ascii) :=
  match l with
  | [] => [rev cur]
  | c :: r =>
      if is_delim c then
        if in_run then re_split_go r cur true
        else rev cur :: re_split_go r [] true
      else re_split_go r (c :: cur) false
  end.

Definition re_split_delims (s : string) : list string :=
  map text (re_split_go (chars s) [] false).

Definition nonempty (s : string) : bool :=
  match s with EmptyString => false | _ => true end.

End Text.

(** ** binary64 numbers: literals, conversions and [repr] *)

Module Num.
Import Text.

Definition neg_if (neg : bool) (f : float) : float :=
  if neg then PrimFloat.opp f else f.

(** The double nearest to [p/q], ties to even, with the given sign. *)
Definition float_of_ratio (neg : bool) (p q : positive) : float :=
  SF2Prim (SFdiv prec emax (S754_finite neg p 0) (S754_finite false q 0)).

(** The double nearest to the integer [z], as a specification float (it is
    infinite when [z] rounds beyond the largest double). *)
Definition round_Z (z : Z) : spec_float := binary_normalize prec emax z 0 false.

(** The double nearest to [m * 10^e] for [0 <= m].  Exponents far outside
    the range of binary64 are settled without building the power of ten:
    [1 <= m] and [400 < e] is beyond the largest double, and
    [m * 10^e < 2^(log2 m + 1 + 3e) <= 2^(-1076)] is below half the least one. *)
Definition float_of_decimal (neg : bool) (m e : Z) : float :=
  match m with
  | Zpos p =>
      if 400 <? e then neg_if neg infinity
      else if Z.log2 m + 1 + 3 * e <=? -1076 then neg_if neg zero
      else if 0 <=? e then neg_if neg (SF2Prim (round_Z (m * 10 ^ e)))
      else float_of_ratio neg p (Z.to_pos (10 ^ (- e)))
  | _ => neg_if neg zero
  end.

Fixpoint span_digits (l : list ascii) : list ascii * list ascii :=
  match l with
  | c :: r =>
      if is_digit c then let (d, rest) := span_digits r in (c :: d, rest)
      else ([], l)
  | [] => ([], [])
  end.

Definition digits_value (ds : list ascii) : Z :=
  fold_left (fun acc c => 10 * acc + (code c - 48)) ds 0.

Definition parse_sign (l : list ascii) : bool * list ascii :=
  match l with
  | "-"%char :: r => (true, r)
  | "+"%char :: r => (false, r)
  | _ => (false, l)
  end.

(** An underscore of a literal stands between two digits; the literal is
    read with the underscores taken out.  [prev] is the character before. *)
Fixpoint drop_underscores (prev : ascii) (l : list ascii) : option (list ascii) :=
  match l with
  | [] => if Ascii.eqb prev "_" then None else Some []
  | c :: r =>
      if Ascii.eqb c "_" then
        if is_digit prev then drop_underscores c r else None
      else if Ascii.eqb prev "_" && negb (is_digit c) then None
      else option_map (cons c) (drop_underscores c r)
  end.

(** "inf", "infinity" and "nan" in any letter case. *)
Definition parse_inf_nan (l : list ascii) : option float :=
  let w := text (map lower_char l) in
  if String.eqb w "inf" || String.eqb w "infinity" then Some infinity
  else if String.eqb w "nan" then Some nan
  else None.

(** digits [. digits] | . digits, then an optional exponent e[+-]digits;
    the result is the mantissa and the power of ten. *)
Definition parse_number (l : list ascii) : option (Z * Z) :=
  let (ip, r1) := span_digits l in
  let (fp, r2) := match r1 with
                  | "."%char :: r => span_digits r
                  | _ => ([], r1)
                  end in
  let m := digits_value (ip ++ fp) in
  let scale := - Z.of_nat (length fp) in
  match ip ++ fp with
  | [] => None
  | _ =>
      match r2 with
      | [] => Some (m, scale)
      | c :: r3 =>
          if Ascii.eqb c "e" || Ascii.eqb c "E" then
            let (eneg, r4) := parse_sign r3 in
            let (ed, r5) := span_digits r4 in
            match ed, r5 with
            | _ :: _, [] =>
                Some (m, (if eneg then - digits_value ed else digits_value ed) + scale)
            | _, _ => None
            end
          else None
      end
  end.

(** [float(s)] for a [str]: [None] when [s] is not a float literal. *)
Definition float_of_string (s : string) : option float :=
  match strip_by float_space (chars s) with
  | [] => None
  | l =>
      match drop_underscores Ascii.zero l with
      | None => None
      | Some l' =>
          let (neg, body) := parse_sign l' in
          match parse_inf_nan body with
          | Some f => Some (neg_if neg f)
          | None =>
              match parse_number body with
              | Some (m, e) => Some (float_of_decimal neg m e)
              | None => None
              end
          end
      end
  end.

(** *** [repr] of a float: the shortest decimal that reads back as it *)

Definition pow10_le (p q k : Z) : bool :=
  if 0 <=? k then q * 10 ^ k <=? p else q <=? p * 10 ^ (- k).

(** From an estimate, the [k] with [10^(k-1) <= p/q < 10^k]. *)
Fixpoint decimal_point (fuel : nat) (p q k : Z) : Z :=
  match fuel with
  | O => k
  | S fuel' =>
      if pow10_le p q k then decimal_point fuel' p q (k + 1)
      else if pow10_le p q (k - 1) then k
      else decimal_point fuel' p q (k - 1)
  end.

(** The [n]-digit decimals on either side of [p/q], and which of them read
    back as [x]: the nearer one when both do. *)
Definition candidate (x : float) (p q k n : Z) : option Z :=
  let num := if 0 <=? n - k then p * 10 ^ (n - k) else p in
  let den := if 0 <=? n - k then q else q * 10 ^ (k - n) in
  let lo := num / den in
  let r := num mod den in
  let reads c := PrimFloat.eqb (float_of_decimal false c (k - n)) x in
  match reads lo, reads (lo + 1) with
  | true, true =>
      if 2 * r <? den then Some lo
      else if den <? 2 * r then Some (lo + 1)
      else Some (if Z.even lo then lo else lo + 1)
  | true, false => Some lo
  | false, true => Some (lo + 1)
  | false, false => None
  end.

Fixpoint shortest (fuel : nat) (x : float) (p q k n : Z) : Z * Z :=
  match fuel with
  | O => (p * 10 ^ (n - k) / q, k - n)
  | S fuel' =>
      match candidate x p q k n with
      | Some c => (c, k - n)
      | None => shortest fuel' x p q k (n + 1)
      end
  end.

Fixpoint drop_zeros (fuel : nat) (c e : Z) : Z * Z :=
  match fuel with
  | O => (c, e)
  | S fuel' => if (c mod 10 =? 0) && (0 <? c) then drop_zeros fuel' (c / 10) (e + 1) else (c, e)
  end.

Definition nat_text (z : Z) : list ascii :=
  chars (NilZero.string_of_uint (N.to_uint (Z.to_N z))).

Definition zeros (n : Z) : list ascii := repeat "0"%char (Z.to_nat n).

(** The digits [ds] with the decimal point after [decpt] of them, the way
    [repr] lays a float out: an exponent when [decpt <= -4] or [16 < decpt]. *)
Definition layout (ds : list ascii) (decpt : Z) : list ascii :=
  let n := Z.of_nat (length ds) in
  if (decpt <=? -4) || (16 <? decpt) then
    let ex := decpt - 1 in
    let et := nat_text (Z.abs ex) in
    firstn 1 ds ++ (match skipn 1 ds with [] => [] | r => "."%char :: r end)
      ++ ["e"%char; if ex <? 0 then "-"%char else "+"%char]
      ++ (if Z.abs ex <? 10 then "0"%char :: et else et)
  else if decpt <=? 0 then
    chars "0." ++ zeros (- decpt) ++ ds
  else if n <=? decpt then
    ds ++ zeros (decpt - n) ++ chars ".0"
  else
    firstn (Z.to_nat decpt) ds ++ "."%char :: skipn (Z.to_nat decpt) ds.

Definition float_repr (x : float) : string :=
  match Prim2SF x with
  | S754_zero s => if s then "-0.0" else "0.0"
  | S754_infinity s => if s then "-inf" else "inf"
  | S754_nan => "nan"
  | S754_finite s m e =>
      let p := if 0 <=? e then Zpos m * 2 ^ e else Zpos m in
      let q := if 0 <=? e then 1 else 2 ^ (- e) in
      let k := decimal_point 8 p q ((Z.log2 p - Z.log2 q) * 30103 / 100000) in
      let (c0, e0) := shortest 17 (abs x) p q k 1 in
      let (c, ex) := drop_zeros 400 c0 e0 in
      let ds := nat_text c in
      text ((if s then ["-"%char] else []) ++ layout ds (Z.of_nat (length ds) + ex))
  end.

(** The interpreter's limit on the digits of an [int] turned into text
    ([sys.int_info.default_max_str_digits]); the sign does not count. *)
Definition max_str_digits : Z := 4300.

(** [str(z)] for an [int]: its decimal text, and [None] where the
    interpreter raises because [z] has more digits than the limit. *)
Definition int_str (z : Z) : option string :=
  let digits := NilZero.string_of_uint (N.to_uint (Z.abs_N z)) in
  if max_str_digits <? Z.of_nat (String.length digits) then None
  else Some (NilZero.string_of_int (Z.to_int z)).

End Num.

(** ** Python values, exceptions and the builtins the module calls *)

Module Py.
Import Text Num.

#[local] Set Warnings "-register-all".
Inductive value : Type :=
| VNone
| VBool (b : bool)
| VInt (z : Z)
| VFloat (f : float)
| VStr (s : string)
| VList (items : list value)
| VTuple (items : list value)
| VDict (entries : list (value * value)).

(** Induction on a value and on the values inside it. *)
Section Induction.
Variable P : value -> Prop.
Hypothesis none_case : P VNone.
Hypothesis bool_case : forall b, P (VBool b).
Hypothesis int_case : forall z, P (VInt z).
Hypothesis float_case : forall f, P (VFloat f).
Hypothesis str_case : forall s, P (VStr s).
Hypothesis list_case : forall items, Forall P items -> P (VList items).
Hypothesis tuple_case : forall items, Forall P items -> P (VTuple items).
Hypothesis dict_case :
  forall entries, Forall (fun kv => P (fst kv) /\ P (snd kv)) entries -> P (VDict entries).

End Induction.

(** The exceptions the module can meet.  A [ValueError] carries its
    message; the others are told apart by class only. *)
Inductive exn : Type :=
| ValueError (msg : string)
| ZeroDivisionError
| TypeError
| AttributeError
| OverflowError.

Inductive result (A : Type) : Type :=
| Return (a : A)
| Raise (e : exn).
Arguments Return {A} a.
Arguments Raise {A} e.

Definition bind {A B} (r : result A) (k : A -> result B) : result B :=
  match r with
  | Return a => k a
  | Raise e => Raise e
  end.

(** [try: body  except Exception: handler] *)
Definition try_except {A} (body : result A) (handler : result A) : result A :=
  match body with
  | Return a => Return a
  | Raise _ => handler
  end.

(** *** [repr] and [str] *)

Definition dquote : ascii := ascii_of_N 34.
Definition squote : ascii := ascii_of_N 39.
Definition backslash : ascii := ascii_of_N 92.

Definition hex_digit (n : Z) : ascii :=
  nth (Z.to_nat n) (chars "0123456789abcdef") "0"%char.

Definition printable (c : ascii) : bool :=
  negb (in_range 0 31 c || in_range 127 160 c || (code c =? 173)).

Definition escape (quote : ascii) (c : ascii) : list ascii :=
  if Ascii.eqb c quote || Ascii.eqb c backslash then [backslash; c]
  else if code c =? 9 then [backslash; "t"%char]
  else if code c =? 10 then [backslash; "n"%char]
  else if code c =? 13 then [backslash; "r"%char]
  else if printable c then [c]
  else [backslash; "x"%char; hex_digit (code c / 16); hex_digit (code c mod 16)].

(** [repr(s)] for a [str]: single quotes, unless the text has a single
    quote and no double quote. *)
Definition str_repr (s : string) : string :=
  let l := chars s in
  let quote :=
    if existsb (Ascii.eqb squote) l && negb (existsb (Ascii.eqb dquote) l)
    then dquote else squote in
  text (quote :: flat_map (escape quote) l ++ [quote]).

Definition join (sep : string) (parts : list string) : string :=
  match parts with
  | [] => EmptyString
  | x :: r => fold_left (fun acc y => acc +:+ sep +:+ y) r x
  end.

(** The [ValueError] of [str] and [repr] on an [int] beyond the limit. *)
Definition int_limit_error : exn :=
  ValueError ("Exceeds the limit (4300 digits) for integer string conversion; "
              +:+ "use sys.set_int_max_str_digits() to increase the limit").

(** [[f(x) for x in items]], which stops at the first item [f] raises on. *)
Definition for_each {A B} (f : A -> result B) : list A -> result (list B) :=
  fix go (items : list A) : result (list B) :=
    match items with
    | [] => Return []
    | x :: rest =>
        match f x with
        | Return y =>
            match go rest with
            | Return ys => Return (y :: ys)
            | Raise e => Raise e
            end
        | Raise e => Raise e
        end
    end.

(** [repr(v)]: it raises on an [int] of too many digits, at any depth. *)
Fixpoint repr (v : value) : result string :=
  match v with
  | VNone => Return "None"
  | VBool b => Return (if b then "True" else "False")
  | VInt z =>
      match int_str z with
      | Some s => Return s
      | None => Raise int_limit_error
      end
  | VFloat f => Return (float_repr f)
  | VStr s => Return (str_repr s)
  | VList items =>
      match for_each repr items with
      | Return parts => Return ("[" +:+ join ", " parts +:+ "]")
      | Raise e => Raise e
      end
  | VTuple items =>
      match for_each repr items with
      | Return parts =>
          match parts with
          | [x] => Return ("(" +:+ x +:+ ",)")
          | _ => Return ("(" +:+ join ", " parts +:+ ")")
          end
      | Raise e => Raise e
      end
  | VDict entries =>
      match for_each (fun kv : value * value =>
                        let (k, x) := kv in
                        match repr k with
                        | Return rk =>
                            match repr x with
                            | Return rx => Return (rk +:+ ": " +:+ rx)
                            | Raise e => Raise e
                            end
                        | Raise e => Raise e
                        end) entries with
      | Return parts => Return ("{" +:+ join ", " parts +:+ "}")
      | Raise e => Raise e
      end
  end.

(** [str(v)] *)
Definition str (v : value) : result string :=
  match v with
  | VStr s => Return s
  | _ => repr v
  end.

(** *** Truth, [dict.get], [float()] and float division *)

Definition null {A} (l : list A) : bool :=
  match l with [] => true | _ => false end.

(** [bool(v)] *)
Definition truthy (v : value) : bool :=
  match v with
  | VNone => false
  | VBool b => b
  | VInt z => negb (z =? 0)
  | VFloat f => negb (PrimFloat.eqb f 0)
  | VStr s => nonempty s
  | VList items | VTuple items => negb (null items)
  | VDict entries => negb (null entries)
  end.

(** [a or b] *)
Definition or_ (a b : value) : value := if truthy a then a else b.

Definition is_key (k : string) (entry : value * value) : bool :=
  match fst entry with
  | VStr s => String.eqb s k
  | _ => false
  end.

(** [d.get(k)] for a [str] key: the value, or [None]. *)
Definition dict_get (d : list (value * value)) (k : string) : value :=
  match find (is_key k) d with
  | Some (_, x) => x
  | None => VNone
  end.

Definition keys (d : list (value * value)) : list value := map fst d.

(** [float(v)] *)
Definition float_ (v : value) : result float :=
  match v with
  | VFloat f => Return f
  | VBool b => Return (if b then 1%float else 0%float)
  | VInt z =>
      match round_Z z with
      | S754_infinity _ => Raise OverflowError
      | sf => Return (SF2Prim sf)
      end
  | VStr s =>
      match float_of_string s with
      | Some f => Return f
      | None => Raise (ValueError ("could not convert string to float: " +:+ str_repr s))
      end
  | _ => Raise TypeError
  end.

(** [a / b] on floats *)
Definition truediv (a b : float) : result float :=
  if PrimFloat.eqb b 0 then Raise ZeroDivisionError else Return (a / b)%float.

(** [a == b] on floats *)
Definition float_eq (a b : float) : bool := PrimFloat.eqb a b.

End Py.

Notation "'let*' x ':=' e 'in' k" := (Py.bind e (fun x => k))
  (at level 10, x pattern, e at level 100, k at level 200).

(** ** exif_gps.py *)

Module ExifGps.
Import Text Num Py.

(** [re.sub] raises [TypeError] on a subject that is not a [str]: this is
    the check a dictionary key passes before [_normalize_key] returns. *)
Definition expect_str (k : value) : result string :=
  match k with
  | VStr s => Return s
  | _ => Raise TypeError
  end.

(** The key without its white space ([re.sub]), in lower case. *)
Definition _normalize_key (s : string) : string := lower (re_sub_spaces s).

(** [{ _normalize_key(k): k for k in tags.keys() }], filled in key order:
    a later key with the same normal form replaces an earlier one. *)
Fixpoint norm_table (ks : list value) (norm : gmap string string)
  : result (gmap string string) :=
  match ks with
  | [] => Return norm
  | k :: rest =>
      let* s := expect_str k in
      norm_table rest (<[_normalize_key s := s]> norm)
  end.

(** [for cand in candidates: ... if key_norm in norm: return norm[key_norm]] *)
Fixpoint first_candidate (norm : gmap string string) (candidates : list string)
  : option string :=
  match candidates with
  | [] => None
  | cand :: rest =>
      match norm !! _normalize_key cand with
      | Some k => Some k
      | None => first_candidate norm rest
      end
  end.

Definition _find_key (tags : value) (candidates : list string)
  : result (option string) :=
  if negb (truthy tags) then Return None
  else
    match tags with
    | VDict entries =>
        let* norm := norm_table (keys entries) ∅ in
        Return (first_candidate norm candidates)
    | _ => Raise AttributeError
    end.

Definition _parse_rational (token : string) : result float :=
  let token := strip token in
  match split_once "/" token with
  | Some (a, b) =>
      let* x := float_ (VStr a) in
      let* y := float_ (VStr b) in
      truediv x y
  | None => float_ (VStr token)
  end.

(** The [parts] of [_parse_dms]: the items of a list or tuple through
    [str], else the non-empty pieces of the stripped text. *)
Definition dms_parts (v : value) : result (list string) :=
  match v with
  | VList items | VTuple items => for_each str items
  | _ =>
      let* text_of_v := str v in
      let s := strip text_of_v in
      let s := strip_chars "[]()" s in
      Return (filter nonempty (re_split_delims s))
  end.

Definition _parse_dms (v : value) : result (float * float * float) :=
  let* parts := dms_parts v in
  if (length parts <? 3)%nat then
    let* shown := repr v in
    Raise (ValueError ("DMS format invalid: " +:+ shown))
  else
    let* deg := _parse_rational (nth 0 parts EmptyString) in
    let* minutes := _parse_rational (nth 1 parts EmptyString) in
    let* seconds := _parse_rational (nth 2 parts EmptyString) in
    Return (deg, minutes, seconds).

(** [str(ref).upper().strip() in ("S", "W")] *)
Definition south_or_west (ref : value) : result bool :=
  let* text_of_ref := str ref in
  let r := strip (upper text_of_ref) in
  Return (String.eqb r "S" || String.eqb r "W").

Definition decimal_degrees (d m s : float) : float :=
  (d + m / 60 + s / 3600)%float.

Definition _dms_to_decimal (dms_val ref : value) : result float :=
  let* (d, m, s) := _parse_dms dms_val in
  let dec := decimal_degrees d m s in
  let* negate := south_or_west ref in
  Return (if negate then (- dec)%float else dec).

(** The helpers [extract_gps_from_exifread] defines again in its body. *)
Module Inline.

Definition _normalize_key (s : string) : string := lower (re_sub_spaces s).

Fixpoint norm_table (ks : list value) (norm : gmap string string)
  : result (gmap string string) :=
  match ks with
  | [] => Return norm
  | k :: rest =>
      let* s := expect_str k in
      norm_table rest (<[_normalize_key s := s]> norm)
  end.

Fixpoint first_candidate (norm : gmap string string) (cands : list string)
  : option string :=
  match cands with
  | [] => None
  | c :: rest =>
      match norm !! _normalize_key c with
      | Some k => Some k
      | None => first_candidate norm rest
      end
  end.

Definition _find_key (d : value) (cands : list string) : result (option string) :=
  match d with
  | VDict entries =>
      let* norm := norm_table (keys entries) ∅ in
      Return (first_candidate norm cands)
  | _ => Raise AttributeError
  end.

Definition _parse_rational (tok : string) : result float :=
  let tok := strip tok in
  match split_once "/" tok with
  | Some (a, b) =>
      let* x := float_ (VStr a) in
      let* y := float_ (VStr b) in
      truediv x y
  | None => float_ (VStr tok)
  end.

Definition dms_parts (v : value) : result (list string) :=
  match v with
  | VList items | VTuple items => for_each str items
  | _ =>
      let* text_of_v := str v in
      let s := strip_chars "[]()" (strip text_of_v) in
      Return (filter nonempty (re_split_delims s))
  end.

Definition _parse_dms (v : value) : result (float * float * float) :=
  let* parts := dms_parts v in
  if (length parts <? 3)%nat then
    let* shown := repr v in
    Raise (ValueError ("DMS invalid: " +:+ shown))
  else
    let* d := _parse_rational (nth 0 parts EmptyString) in
    let* m := _parse_rational (nth 1 parts EmptyString) in
    let* s := _parse_rational (nth 2 parts EmptyString) in
    Return (d, m, s).

Definition _dms_to_decimal (v ref : value) : result float :=
  let* (d, m, s) := _parse_dms v in
  let dec := (d + m / 60 + s / 3600)%float in
  let* negate := (let* text_of_ref := str ref in
                  let r := strip (upper text_of_ref) in
                  Return (String.eqb r "S" || String.eqb r "W")) in
  Return (if negate then (- dec)%float else dec).

End Inline.

Definition is_none (v : value) : bool :=
  match v with VNone => true | _ => false end.

(** [{"latitude": lat, "longitude": lon, "method": m}] *)
Definition coordinate (lat lon : float) (m : value) : value :=
  VDict [(VStr "latitude", VFloat lat); (VStr "longitude", VFloat lon);
         (VStr "method", m)].

(** [bool(k)] and [tags.get(k)] for the [Optional[str]] of [_find_key]. *)
Definition key_truthy (k : option string) : bool :=
  match k with
  | Some s => nonempty s
  | None => false
  end.

Definition dict_get_opt (d : list (value * value)) (k : option string) : value :=
  match k with
  | Some s => dict_get d s
  | None =>
      match find (fun entry => is_none (fst entry)) d with
      | Some (_, x) => x
      | None => VNone
      end
  end.

(** Step 0 of the extractor: the coordinate a [loc] mapping already holds.
    [None] is the fall through to the EXIF steps: [loc] is not a dict, a
    value is missing, or [float()] raised inside the [try]. *)
Definition location_coordinate (loc : value) : option value :=
  match loc with
  | VDict l =>
      let lat := dict_get l "latitude" in
      let lon := dict_get l "longitude" in
      if negb (is_none lat) && negb (is_none lon) then
        match (let* la := float_ lat in
               let* lo := float_ lon in
               Return (coordinate la lo (or_ (dict_get l "method") (VStr "LOCATION"))))
        with
        | Return c => Some c
        | Raise _ => None
        end
      else None
  | _ => None
  end.

(** Step 1: the ["exif"] mapping when there is one, else the input. *)
Definition tag_source (data : value) : value :=
  match data with
  | VDict d =>
      match dict_get d "exif" with
      | VDict e => VDict e
      | _ => data
      end
  | _ => data
  end.

Definition extract_gps_from_exifread (data : value) : result value :=
  if negb (truthy data) then Return VNone
  else
    let loc := match data with VDict d => dict_get d "location" | _ => VNone end in
    match location_coordinate loc with
    | Some c => Return c
    | None =>
        match tag_source data with
        | VDict tags =>
            let* lat_key := Inline._find_key (VDict tags) ["GPS GPSLatitude"; "GPSLatitude"] in
            let* lat_ref_key := Inline._find_key (VDict tags) ["GPS GPSLatitudeRef"; "GPSLatitudeRef"] in
            let* lon_key := Inline._find_key (VDict tags) ["GPS GPSLongitude"; "GPSLongitude"] in
            let* lon_ref_key := Inline._find_key (VDict tags) ["GPS GPSLongitudeRef"; "GPSLongitudeRef"] in
            if negb (key_truthy lat_key && key_truthy lat_ref_key
                     && key_truthy lon_key && key_truthy lon_ref_key)
            then Return VNone
            else
              try_except
                (let* lat := Inline._dms_to_decimal (dict_get_opt tags lat_key)
                                                    (dict_get_opt tags lat_ref_key) in
                 let* lon := Inline._dms_to_decimal (dict_get_opt tags lon_key)
                                                    (dict_get_opt tags lon_ref_key) in
                 Return (coordinate lat lon (VStr "EXIFREAD")))
                (Return VNone)
        | _ => Return VNone
        end
    end.

(** What [reverse_geocode_from_gps] does next: it returns the pair
    [(city, country)] itself, or it tail-calls
    [reverse_geocode_from_latlon(lat, lon)], the HTTP collaborator. *)
Inductive geocoding : Type :=
| Answer (city country : value)
| Geocode (lat lon : float).

Definition reverse_geocode_from_gps (gps_or_lat lon : value) : result geocoding :=
  match gps_or_lat with
  | VDict gps =>
      let lat := or_ (dict_get gps "lat") (dict_get gps "latitude") in
      let lon_val := or_ (dict_get gps "lon") (dict_get gps "longitude") in
      if is_none lat || is_none lon_val then Return (Answer VNone VNone)
      else
        let* x := float_ lat in
        let* y := float_ lon_val in
        Return (Geocode x y)
  | _ =>
      if is_none lon then Return (Answer VNone VNone)
      else
        let* x := float_ gps_or_lat in
        let* y := float_ lon in
        Return (Geocode x y)
  end.

End ExifGps.

(** * Vocabulary of the statements *)

Import Text Num Py ExifGps.

(** [|x - c| <= tol] *)
Definition within (x c tol : float) : bool :=
  PrimFloat.leb (c - tol) x && PrimFloat.leb x (c + tol).

(** The flat tag map of the Paris scenario, and the two sums it stands for. *)
Definition paris_tags : value :=
  VDict [(VStr "GPS GPSLatitude", VStr "48, 51, 179/100");
         (VStr "GPS GPSLatitudeRef", VStr "N");
         (VStr "GPS GPSLongitude", VStr "2, 21, 3/100");
         (VStr "GPS GPSLongitudeRef", VStr "E")].

Definition paris_latitude : float := (48 + 51 / 60 + (179 / 100) / 3600)%float.
Definition paris_longitude : float := (2 + 21 / 60 + (3 / 100) / 3600)%float.

(** The [ValueError] of [float()] on a text that is no literal. *)
Definition float_error (s : string) : exn :=
  ValueError ("could not convert string to float: " +:+ str_repr s).

(** The class of an exception, its message set aside. *)
Definition exn_class (e : exn) : exn :=
  match e with
  | ValueError _ => ValueError EmptyString
  | _ => e
  end.

(** Same value, or an exception of the same class. *)
Definition same_outcome {A} (r1 r2 : result A) : Prop :=
  match r1, r2 with
  | Return a, Return b => a = b
  | Raise e1, Raise e2 => exn_class e1 = exn_class e2
  | _, _ => False
  end.

Definition is_dict (v : value) : bool :=
  match v with VDict _ => true | _ => false end.

(** The number 0: the [int] 0 and the floats 0.0 and -0.0. *)
Definition is_zero_number (v : value) : bool :=
  match v with
  | VInt z => z =? 0
  | VFloat f => PrimFloat.eqb f 0
  | _ => false
  end.

(** The table the dict comprehension builds from string keys. *)
Definition fill (norm : gmap string string) (ks : list string) : gmap string string :=
  fold_left (fun m s => <[_normalize_key s := s]> m) ks norm.

Definition is_str (v : value) : bool :=
  match v with VStr _ => true | _ => false end.

(** The keys that are [str], as texts. *)
Definition key_strings (ks : list value) : list string :=
  flat_map (fun k => match k with VStr s => [s] | _ => [] end) ks.

(** A dict written with [str] keys. *)
Definition str_dict (entries : list (string * value)) : value :=
  VDict (map (fun kv => (VStr (fst kv), snd kv)) entries).

(** What [_find_key] answers on a dict whose keys are all [str]. *)
Definition resolved (ks cands : list string) (r : option string) : Prop :=
  match r with
  | Some k => In k ks /\ exists c, In c cands /\ _normalize_key k = _normalize_key c
  | None => forall k c, In k ks -> In c cands -> _normalize_key k <> _normalize_key c
  end.



(** The tag source has [str] keys only (a value that is no dict has none). *)
Definition string_keyed (v : value) : bool :=
  match v with
  | VDict d => forallb is_str (keys d)
  | _ => true
  end.

(** The [loc] of the extractor. *)
Definition location_of (data : value) : value :=
  match data with
  | VDict d => dict_get d "location"
  | _ => VNone
  end.

(** No key of [tags] has the normal form of one of the spellings. *)
Definition lacks (tags : list (value * value)) (spellings : list string) : Prop :=
  forall k c, In k (key_strings (keys tags)) -> In c spellings ->
              _normalize_key k <> _normalize_key c.

(** The two spellings the extractor tries for each of the four keys. *)
Definition latitude_names : list string := ["GPS GPSLatitude"; "GPSLatitude"].
Definition latitude_ref_names : list string := ["GPS GPSLatitudeRef"; "GPSLatitudeRef"].
Definition longitude_names : list string := ["GPS GPSLongitude"; "GPSLongitude"].
Definition longitude_ref_names : list string := ["GPS GPSLongitudeRef"; "GPSLongitudeRef"].

(** A dict of the shape the extractor returns. *)
Definition is_coordinate (v : value) : Prop :=
  exists lat lon m, v = coordinate lat lon m.

(** Neither white space nor a slash. *)
Definition lit (c : ascii) : bool := negb (isspace c) && negb (Ascii.eqb c "/").


(** The literal starts, once the white space [float()] skips is gone, with
    a minus sign. *)
Definition minus_signed (s : string) : bool :=
  match strip_by float_space (chars s) with
  | c :: _ => Ascii.eqb c "-"
  | [] => false
  end.

(** The sign a token carries: that of its literal, and for a token a/b a
    minus when exactly one of a and b starts with a minus sign. *)
Definition token_minus (token : string) : bool :=
  match split_once "/" (strip token) with
  | Some (a, b) => xorb (minus_signed a) (minus_signed b)
  | None => minus_signed (strip token)
  end.

(** The sign bit of a float is [sx], or the float is NaN. *)
Definition has_sign (sx : bool) (y : spec_float) : bool :=
  match y with
  | S754_nan => true
  | S754_zero s | S754_infinity s | S754_finite s _ _ => Bool.eqb s sx
  end.

(** The component [d] is on the side of zero its token says, unless it is
    NaN: [0 <= d] for a token that carries no minus, [d <= 0] for one
    that does. *)
Definition follows_sign (token : string) (d : float) : Prop :=
  (token_minus token = false -> PrimFloat.leb 0 d = negb (PrimFloat.is_nan d))
  /\ (token_minus token = true -> PrimFloat.leb d 0 = negb (PrimFloat.is_nan d)).

(** * The rest of the module and its callers *)

(** ** exif_gps.py: [exif_gps_to_decimal] *)

Module ExifTools.
Import Text Num Py ExifGps.

Fixpoint starts_with (k l : list ascii) : bool :=
  match k, l with
  | [], _ => true
  | a :: k', b :: l' => Ascii.eqb a b && starts_with k' l'
  | _ :: _, [] => false
  end.

(** [k in s] for two texts: [k] occurs in [s]. *)
Fixpoint occurs (k l : list ascii) : bool :=
  match l with
  | [] => starts_with k []
  | _ :: r => starts_with k l || occurs k r
  end.

Definition is_text (k : string) (v : value) : bool :=
  match v with
  | VStr s => String.eqb s k
  | _ => false
  end.

(** [k in v] for a [str] [k]: a key of a dict, an item of a list or
    tuple, a part of a text; [TypeError] on a value that is not iterable. *)
Definition contains (v : value) (k : string) : result bool :=
  match v with
  | VDict d => Return (existsb (is_key k) d)
  | VList items | VTuple items => Return (existsb (is_text k) items)
  | VStr s => Return (occurs (chars k) (chars s))
  | _ => Raise TypeError
  end.

(** [v[k]] for a [str] [k], where the code reaches it: after [k in v]
    held, so that on a dict the key is there.  On a text, a list or a
    tuple the index must be an integer, and the other values have no
    items: [TypeError]. *)
Definition subscript (v : value) (k : string) : result value :=
  match v with
  | VDict d => Return (dict_get d k)
  | _ => Raise TypeError
  end.

(** [all(k in exif for k in need)]: it stops at the first key that is missing. *)
Fixpoint all_in (exif : value) (need : list string) : result bool :=
  match need with
  | [] => Return true
  | k :: rest =>
      let* here := contains exif k in
      if here then all_in exif rest else Return false
  end.

Definition need : list string :=
  ["GPSLatitude"; "GPSLatitudeRef"; "GPSLongitude"; "GPSLongitudeRef"].

(** The pair [(lat, lon)] *)
Definition pair_of (lat lon : float) : value := VTuple [VFloat lat; VFloat lon].

Definition exif_gps_to_decimal (exif : value) : result value :=
  try_except
    (let* has_lat := contains exif "lat" in
     let* has_both := if has_lat then contains exif "lon" else Return false in
     if has_both then
       let* a := subscript exif "lat" in
       let* x := float_ a in
       let* b := subscript exif "lon" in
       let* y := float_ b in
       Return (pair_of x y)
     else
       let* complete := all_in exif need in
       if complete then
         let* lat_val := subscript exif "GPSLatitude" in
         let* lat_ref := subscript exif "GPSLatitudeRef" in
         let* lat := _dms_to_decimal lat_val lat_ref in
         let* lon_val := subscript exif "GPSLongitude" in
         let* lon_ref := subscript exif "GPSLongitudeRef" in
         let* lon := _dms_to_decimal lon_val lon_ref in
         Return (pair_of lat lon)
       else Return VNone)
    (Return VNone).

End ExifTools.

(** ** exif_gps.py: [reverse_geocode_from_latlon] *)

Module Geocoding.
Import Text Num Py ExifGps.

(** What the code reads of the HTTP response: the status, and the decoded
    JSON body ([None] when [r.json()] raises). *)
Record response : Type := { status_code : Z; json : option value }.

(** [d.get(k, default)] *)
Definition get_default (d : list (value * value)) (k : string) (default : value)
  : value :=
  match find (is_key k) d with
  | Some (_, x) => x
  | None => default
  end.

(** [v.get(k)]: [AttributeError] on a value that is no dict. *)
Definition get_ (v : value) (k : string) : result value :=
  match v with
  | VDict d => Return (dict_get d k)
  | _ => Raise AttributeError
  end.

(** [http_get lat lon] stands for reading the URL from the configuration
    and for [requests.get] with the two parameters: [None] when either
    raises.  Whatever is raised inside the [try] ends in [(None, None)];
    the line printed on the way is left out. *)
Definition reverse_geocode_from_latlon
  (http_get : value -> value -> option response) (lat lon : value)
  : value * value :=
  match http_get lat lon with
  | None => (VNone, VNone)
  | Some r =>
      if status_code r =? 200 then
        match json r with
        | None => (VNone, VNone)
        | Some data =>
            let addr := match data with
                        | VDict d => get_default d "address" (VDict [])
                        | _ => VDict []
                        end in
            match (let* city := (let* c := get_ addr "city" in
                                 if truthy c then Return c
                                 else
                                   let* t := get_ addr "town" in
                                   if truthy t then Return t
                                   else get_ addr "village") in
                   let* country := get_ addr "country" in
                   Return (city, country))
            with
            | Return place => place
            | Raise _ => (VNone, VNone)
            end
        end
      else (VNone, VNone)
  end.

End Geocoding.

(** ** exif_gps.py: the tag reader and the image pipeline *)

Module Pipeline.
Import Text Num Py ExifGps ExifTools Geocoding.

(** A call into a library: its value, or the text [str(e)] of what it raised. *)
Inductive outcome (A : Type) : Type :=
| Done (a : A)
| Failed (msg : string).
Arguments Done {A} a.
Arguments Failed {A} msg.

(** A tag value of the reader, as far as the code looks at it: [str(value)]
    ([None] when it raises) and [repr(value)]. *)
Record tag : Type := { tag_str : option string; tag_repr : outcome string }.

(** [tags[k] = x] *)
Fixpoint dict_set (d : list (value * value)) (k : string) (x : value)
  : list (value * value) :=
  match d with
  | [] => [(VStr k, x)]
  | entry :: rest =>
      if is_key k entry then (fst entry, x) :: rest
      else entry :: dict_set rest k x
  end.

(** The loop over [tags_raw.items()]: the tags copied so far, and the text
    of the exception that ended the loop early, if any. *)
Fixpoint copy_tags (raw : list (string * tag)) (tags : list (value * value))
  : list (value * value) * option string :=
  match raw with
  | [] => (tags, None)
  | (name, value) :: rest =>
      match tag_str value with
      | Some s => copy_tags rest (dict_set tags name (VStr s))
      | None =>
          match tag_repr value with
          | Done s => copy_tags rest (dict_set tags name (VStr s))
          | Failed msg => (tags, Some msg)
          end
      end
  end.

(** [process_file] stands for [exifread.process_file] on the stream. *)
Definition extract_exif_with_exifread
  (process_file : list Byte.byte -> outcome (list (string * tag)))
  (image_bytes : list Byte.byte) : value :=
  match process_file image_bytes with
  | Failed msg => VDict (dict_set [] "error" (VStr msg))
  | Done tags_raw =>
      match copy_tags tags_raw [] with
      | (tags, None) => VDict tags
      | (tags, Some msg) => VDict (dict_set tags "error" (VStr msg))
      end
  end.

(** [download] stands for [download_from_minio_url], taken as imported.
    The line printed when something is raised is left out. *)
Definition get_city_country_from_image
  (download : string -> outcome (list Byte.byte))
  (process_file : list Byte.byte -> outcome (list (string * tag)))
  (http_get : value -> value -> option response)
  (minio_url : string) (default_city default_country : value)
  : value * value :=
  match download minio_url with
  | Failed _ => (default_city, default_country)
  | Done image_bytes =>
      let exif_tags := extract_exif_with_exifread process_file image_bytes in
      match (let* gps := extract_gps_from_exifread exif_tags in
             if truthy gps then
               let* lat := subscript gps "latitude" in
               let* lon := subscript gps "longitude" in
               let (city, country) := reverse_geocode_from_latlon http_get lat lon in
               if truthy city || truthy country then Return (Some (city, country))
               else Return None
             else Return None)
      with
      | Return (Some place) => place
      | _ => (default_city, default_country)
      end
  end.

End Pipeline.

(** ** images.py: bucket and object name of a MinIO URL *)

Module Images.
Import Text Num Py.

(** [s.split(sep)] *)
Fixpoint split_on (sep : ascii) (l : list ascii) : list (list ascii) :=
  match l with
  | [] => [[]]
  | c :: r =>
      if Ascii.eqb c sep then [] :: split_on sep r
      else
        match split_on sep r with
        | p :: ps => (c :: p) :: ps
        | [] => [[c]]
        end
  end.

(** [sep.join(parts)] *)
Fixpoint join_on (sep : ascii) (parts : list (list ascii)) : list ascii :=
  match parts with
  | [] => []
  | p :: ps =>
      match ps with
      | [] => p
      | _ => p ++ sep :: join_on sep ps
      end
  end.

(** The body of the loop of [download_images_locally] up to the download:
    from the [path] of the parsed [url], the bucket and the object name. *)
Definition bucket_and_object (url path : string) : result (string * string) :=
  let path_parts := split_on "/" (lstrip_by (Ascii.eqb "/") (chars path)) in
  if (length path_parts <? 2)%nat then
    Raise (ValueError ("Invalid MinIO image URL: " +:+ url))
  else
    let bucket := nth 0 path_parts [] in
    let object_name := join_on "/" (skipn 1 path_parts) in
    Return (text bucket, text object_name).

End Images.

(** ** image_bytes.py: [_sniff_mime_ext] *)

Module ImageBytes.

(** [b[i:j]] *)
Definition slice {A} (i j : nat) (b : list A) : list A := firstn (j - i) (skipn i b).

Fixpoint bytes_eqb (a b : list Byte.byte) : bool :=
  match a, b with
  | [], [] => true
  | x :: a', y :: b' => Byte.eqb x y && bytes_eqb a' b'
  | _, _ => false
  end.

Fixpoint bytes_start (x b : list Byte.byte) : bool :=
  match x, b with
  | [], _ => true
  | u :: x', v :: b' => Byte.eqb u v && bytes_start x' b'
  | _ :: _, [] => false
  end.

(** [x in b] for two byte strings *)
Fixpoint bytes_in (x b : list Byte.byte) : bool :=
  match b with
  | [] => bytes_start x []
  | _ :: r => bytes_start x b || bytes_in x r
  end.

Definition ascii_bytes (s : string) : list Byte.byte := list_byte_of_string s.

Definition jpeg_magic : list Byte.byte := [Byte.xff; Byte.xd8; Byte.xff].
Definition png_magic : list Byte.byte :=
  [Byte.x89; Byte.x50; Byte.x4e; Byte.x47; Byte.x0d; Byte.x0a; Byte.x1a; Byte.x0a].
Definition heic_brands : list (list Byte.byte) :=
  map ascii_bytes ["heic"; "heix"; "hevc"; "mif1"; "heif"].

Definition _sniff_mime_ext (b : list Byte.byte) : string * string :=
  if (3 <? length b)%nat && bytes_eqb (slice 0 3 b) jpeg_magic then
    ("image/jpeg", "jpg")
  else if (8 <? length b)%nat && bytes_eqb (slice 0 8 b) png_magic then
    ("image/png", "png")
  else if (12 <? length b)%nat && bytes_eqb (slice 0 4 b) (ascii_bytes "RIFF")
          && bytes_eqb (slice 8 12 b) (ascii_bytes "WEBP") then
    ("image/webp", "webp")
  else if bytes_eqb (slice 4 8 b) (ascii_bytes "ftyp")
          && existsb (fun x => bytes_in x (slice 8 16 b)) heic_brands then
    ("image/heic", "heic")
  else ("image/jpeg", "jpg").

End ImageBytes.

(** ** Vocabulary of the further statements *)

Import ExifTools Geocoding Pipeline Images ImageBytes.

(** A flat tag map with the four bare keys. *)
Definition bare_tags (lat lat_ref lon lon_ref : value) : value :=
  VDict [(VStr "GPSLatitude", lat); (VStr "GPSLatitudeRef", lat_ref);
         (VStr "GPSLongitude", lon); (VStr "GPSLongitudeRef", lon_ref)].

(** [k in d] on the entries of a dict *)
Definition has_key (d : list (value * value)) (k : string) : bool :=
  existsb (is_key k) d.

(** The [lat] and the [lon_val] of the dict form of the wrapper. *)
Definition gps_lat (gps : list (value * value)) : value :=
  or_ (dict_get gps "lat") (dict_get gps "latitude").
Definition gps_lon (gps : list (value * value)) : value :=
  or_ (dict_get gps "lon") (dict_get gps "longitude").

(** A response with status 200 and a JSON object as its body. *)
Definition ok_json (body : list (value * value)) : response :=
  {| status_code := 200; json := Some (VDict body) |}.

(** Every value of the dict is a [str]. *)
Definition str_valued (d : list (value * value)) : bool :=
  forallb (fun entry => is_str (snd entry)) d.

(** The four lists of spellings of the extractor. *)
Definition gps_spellings : list (list string) :=
  [latitude_names; latitude_ref_names; longitude_names; longitude_ref_names].

(** No tag name has the normal form of one of the spellings. *)
Definition names_lack (names spellings : list string) : Prop :=
  forall n c, In n names -> In c spellings -> _normalize_key n <> _normalize_key c.

(** * Properties *)

(** ** The Paris scenario *)

#[local] Set Warnings "-inexact-float".

(** C1, as stated, fails: the extractor does return the two sums, but they
    are not 48.8530 and 2.3508 to the four places given. *)
Lemma C1_paris_not_48_8530 :
  extract_gps_from_exifread paris_tags
    = Return (coordinate paris_latitude paris_longitude (VStr "EXIFREAD"))
  /\ within paris_latitude 48.8530 0.00005 = false
  /\ within paris_longitude 2.3508 0.00005 = false.
Proof. repeat split; vm_compute; reflexivity. Qed.

(** C1 (amended): on the Paris tag map the extractor returns latitude
    48 + 51/60 + (179/100)/3600, which is 48.8505 to four places, longitude
    2 + 21/60 + (3/100)/3600, which is 2.3500, and method "EXIFREAD". *)
Theorem C1_paris_coordinate :
  extract_gps_from_exifread paris_tags
    = Return (coordinate paris_latitude paris_longitude (VStr "EXIFREAD"))
  /\ within paris_latitude 48.8505 0.00005 = true
  /\ within paris_longitude 2.3500 0.00005 = true.
Proof. repeat split; vm_compute; reflexivity. Qed.

(** ** Failures of the token parser *)





(** *** Conversions to text that raise *)



Lemma for_each_returns {A B} (f g : A -> result B) (items : list A) (ys : list B) :
  (forall x y, f x = Return y -> exists z, g x = Return z) ->
  for_each f items = Return ys -> exists zs, for_each g items = Return zs.
Proof.
  intros F. revert ys. induction items as [|x rest IH]; intros ys; simpl.
  - intros _. now exists [].
  - destruct (f x) as [y|e] eqn:Ex; [|discriminate].
    destruct (for_each f rest) as [ys'|e]; [|discriminate]. intros _.
    destruct (F _ _ Ex) as [z ->]. destruct (IH ys' eq_refl) as [zs ->].
    now exists (z :: zs).
Qed.

(** An element [str] turns into text, [repr] does too. *)
Lemma str_returns_repr (x : value) (s : string) :
  str x = Return s -> exists shown, repr x = Return shown.
Proof.
  destruct x; simpl; intros H; try (now exists s).
  now exists (str_repr s0).
Qed.

(** Where the split of the raw value succeeds, so does its [repr]. *)
Lemma dms_parts_returns_repr (v : value) (parts : list string) :
  dms_parts v = Return parts -> exists shown, repr v = Return shown.
Proof.
  destruct v as [ |b|z|f|s|items|items|entries]; cbn [dms_parts];
    try (destruct (str _) as [t|e] eqn:E; cbn [bind]; [|discriminate];
         intros _; exact (str_returns_repr _ _ E)).
  - intros H. destruct (for_each_returns str repr items parts str_returns_repr H) as [zs E].
    cbn [repr]. change (for_each repr items) with (for_each repr items) in E.
    rewrite E. eauto.
  - intros H. destruct (for_each_returns str repr items parts str_returns_repr H) as [zs E].
    cbn [repr]. rewrite E. destruct zs as [|z [|z' zs]]; eauto.
Qed.








(** With three parts or more, [_parse_dms] is the three token parses in a row. *)
Lemma parse_dms_three (v : value) (a b c : string) (rest : list string) :
  dms_parts v = Return (a :: b :: c :: rest) ->
  _parse_dms v =
    (let* deg := _parse_rational a in
     let* minutes := _parse_rational b in
     let* seconds := _parse_rational c in
     Return (deg, minutes, seconds)).
Proof. intros H. unfold _parse_dms. rewrite H. reflexivity. Qed.

Lemma parts_long (parts : list string) :
  (length parts <? 3)%nat = false ->
  exists a b c rest, parts = a :: b :: c :: rest.
Proof.
  intros H. apply Nat.ltb_ge in H.
  destruct parts as [|a [|b [|c rest]]]; simpl in H; try lia.
  now exists a, b, c, rest.
Qed.

(** With fewer than three parts, [_parse_dms] raises the [ValueError] that
    carries the [repr] of the raw value. *)
Lemma parse_dms_short (v : value) (parts : list string) (shown : string) :
  dms_parts v = Return parts -> repr v = Return shown ->
  (length parts < 3)%nat ->
  _parse_dms v = Raise (ValueError ("DMS format invalid: " +:+ shown)).
Proof.
  intros P R L. apply Nat.ltb_lt in L. unfold _parse_dms.
  rewrite P. cbn [bind]. rewrite L, R. reflexivity.
Qed.

Lemma parse_dms_split_raises (v : value) (e : exn) :
  dms_parts v = Raise e -> _parse_dms v = Raise e.
Proof. intros P. unfold _parse_dms. now rewrite P. Qed.





(** ** The helpers defined twice *)

Lemma same_outcome_refl {A} (r : result A) : same_outcome r r.
Proof. destruct r; simpl; reflexivity. Qed.

Lemma inline_norm_table (ks : list value) (norm : gmap string string) :
  Inline.norm_table ks norm = norm_table ks norm.
Proof.
  revert norm. induction ks as [|k rest IH]; intros norm; simpl.
  - reflexivity.
  - destruct (expect_str k); simpl; [apply IH | reflexivity].
Qed.

Lemma inline_first_candidate (norm : gmap string string) (cands : list string) :
  Inline.first_candidate norm cands = first_candidate norm cands.
Proof.
  induction cands as [|c rest IH]; simpl; [reflexivity|].
  unfold Inline._normalize_key, _normalize_key. now rewrite IH.
Qed.

(** On a dict the guard [if not tags] of the module-level resolver changes
    nothing: an empty dict has no key to find. *)
Lemma inline_find_key_dict (d : list (value * value)) (cands : list string) :
  Inline._find_key (VDict d) cands = _find_key (VDict d) cands.
Proof.
  unfold Inline._find_key, _find_key. rewrite inline_norm_table.
  destruct d as [|kv d].
  - cbn. f_equal. rewrite inline_first_candidate.
    induction cands as [|c rest IH]; cbn [first_candidate]; [reflexivity|].
    rewrite lookup_empty. exact IH.
  - cbn [truthy null negb].
    destruct (norm_table (keys (kv :: d)) ∅) as [norm|e]; cbn [bind]; [|reflexivity].
    now rewrite inline_first_candidate.
Qed.

Lemma inline_find_key_truthy (t : value) (cands : list string) :
  truthy t = true -> Inline._find_key t cands = _find_key t cands.
Proof.
  intros T. destruct t; try apply inline_find_key_dict;
    unfold Inline._find_key, _find_key; rewrite T; reflexivity.
Qed.

Lemma inline_parse_rational (tok : string) :
  Inline._parse_rational tok = _parse_rational tok.
Proof. reflexivity. Qed.

Lemma inline_dms_parts (v : value) : Inline.dms_parts v = dms_parts v.
Proof. reflexivity. Qed.

Lemma inline_parse_dms_long (v : value) :
  (forall parts, dms_parts v = Return parts -> (3 <= length parts)%nat) ->
  Inline._parse_dms v = _parse_dms v.
Proof.
  intros L. unfold Inline._parse_dms, _parse_dms. rewrite inline_dms_parts.
  destruct (dms_parts v) as [parts|e]; cbn [bind]; [|reflexivity].
  specialize (L parts eq_refl). apply Nat.ltb_ge in L. rewrite L. reflexivity.
Qed.

Lemma inline_parse_dms_short (v : value) (parts : list string) (shown : string) :
  dms_parts v = Return parts -> repr v = Return shown ->
  (length parts < 3)%nat ->
  Inline._parse_dms v = Raise (ValueError ("DMS invalid: " +:+ shown))
  /\ _parse_dms v = Raise (ValueError ("DMS format invalid: " +:+ shown)).
Proof.
  intros P R L. split; [|now apply (parse_dms_short v parts)].
  apply Nat.ltb_lt in L. unfold Inline._parse_dms.
  rewrite inline_dms_parts, P. cbn [bind]. rewrite L, R. reflexivity.
Qed.

Lemma inline_parse_dms (v : value) :
  same_outcome (Inline._parse_dms v) (_parse_dms v).
Proof.
  destruct (dms_parts v) as [parts|e] eqn:P.
  - destruct (Nat.lt_ge_cases (length parts) 3) as [L|L].
    + destruct (dms_parts_returns_repr v parts P) as [shown R].
      destruct (inline_parse_dms_short v parts shown P R L) as [-> ->]. reflexivity.
    + rewrite (inline_parse_dms_long v); [apply same_outcome_refl|].
      intros parts' P'. rewrite P in P'. now injection P' as <-.
  - rewrite (inline_parse_dms_long v); [apply same_outcome_refl|].
    intros parts' P'. rewrite P in P'. discriminate.
Qed.

Lemma inline_dms_to_decimal (v ref : value) :
  same_outcome (Inline._dms_to_decimal v ref) (_dms_to_decimal v ref).
Proof.
  pose proof (inline_parse_dms v) as H.
  unfold Inline._dms_to_decimal, _dms_to_decimal.
  destruct (Inline._parse_dms v) as [[[d m] s]|e1], (_parse_dms v) as [[[d' m'] s']|e2];
    simpl in H; try contradiction.
  - inversion H; subst. exact (same_outcome_refl _).
  - exact H.
Qed.

(** C9, as stated, fails: on [None] the module-level resolver answers
    "not found" and the inline one raises; and the two [ValueError]s for
    fewer than three tokens do not carry the same text. *)
Lemma C9_find_key_none_differs :
  _find_key VNone ["GPSLatitude"] = Return None
  /\ Inline._find_key VNone ["GPSLatitude"] = Raise AttributeError
  /\ _parse_dms (VStr "48, 51") = Raise (ValueError "DMS format invalid: '48, 51'")
  /\ Inline._parse_dms (VStr "48, 51") = Raise (ValueError "DMS invalid: '48, 51'").
Proof. repeat split; vm_compute; reflexivity. Qed.

(** C9 (amended): the inline [_normalize_key] and [_parse_rational] equal
    the module-level ones on every input; the inline [_find_key] equals the
    module-level one on every dict and on every truthy value; the inline
    [_parse_dms] and [_dms_to_decimal] return the same value or raise an
    exception of the same class as the module-level ones, and [_parse_dms]
    is equal outright with three tokens or more (with fewer, the two
    [ValueError] texts differ: "DMS invalid" and "DMS format invalid"). *)
Theorem C9_inline_helpers_agree :
  (forall s, Inline._normalize_key s = _normalize_key s)
  /\ (forall t cands, is_dict t || truthy t = true ->
        Inline._find_key t cands = _find_key t cands)
  /\ (forall tok, Inline._parse_rational tok = _parse_rational tok)
  /\ (forall v, same_outcome (Inline._parse_dms v) (_parse_dms v)
        /\ ((forall parts, dms_parts v = Return parts -> (3 <= length parts)%nat) ->
            Inline._parse_dms v = _parse_dms v))
  /\ (forall v ref, same_outcome (Inline._dms_to_decimal v ref) (_dms_to_decimal v ref)).
Proof.
  split; [reflexivity|].
  split.
  { intros t cands H. destruct t; simpl in H;
      try (apply inline_find_key_truthy; exact H).
    apply inline_find_key_dict. }
  split; [exact inline_parse_rational|].
  split.
  { intros v. split; [apply inline_parse_dms | apply inline_parse_dms_long]. }
  exact inline_dms_to_decimal.
Qed.

Lemma C9_inline_helpers_agree_witness :
  Inline._find_key paris_tags ["GPSLatitude"] = _find_key paris_tags ["GPSLatitude"]
  /\ Inline._parse_dms (VStr "48, 51, 179/100") = _parse_dms (VStr "48, 51, 179/100").
Proof.
  split.
  - apply (proj1 (proj2 C9_inline_helpers_agree) paris_tags). reflexivity.
  - apply (proj2 (proj1 (proj2 (proj2 (proj2 C9_inline_helpers_agree)))
                    (VStr "48, 51, 179/100"))).
    intros parts P. injection P as <-. simpl. lia.
Defined.

(** ** A coordinate of zero degrees in the geocoding wrapper *)

Lemma zero_is_falsy (v : value) : is_zero_number v = true -> truthy v = false.
Proof. destruct v; simpl; try discriminate; intros ->; reflexivity. Qed.

(** C10, as stated, fails: a "latitude" of 0 is falsy but it is not
    [None], so [lat] is 0 and the geocoder is called. *)
Lemma C10_falsy_latitude_is_geocoded :
  reverse_geocode_from_gps
    (VDict [(VStr "lat", VInt 0); (VStr "latitude", VInt 0); (VStr "lon", VInt 5)])
    VNone
  = Return (Geocode 0 5).
Proof. vm_compute. reflexivity. Qed.

(** C10 (amended): when "lat" maps to the number 0 and "latitude" is absent
    or [None] (respectively "lon" and "longitude"), the wrapper returns
    (None, None) and does not call the geocoder. *)
Theorem C10_zero_coordinate_is_absent (gps : list (value * value)) (lon : value) :
  (is_zero_number (dict_get gps "lat") = true /\ dict_get gps "latitude" = VNone)
  \/ (is_zero_number (dict_get gps "lon") = true /\ dict_get gps "longitude" = VNone) ->
  reverse_geocode_from_gps (VDict gps) lon = Return (Answer VNone VNone).
Proof.
  intros [[Z N] | [Z N]]; apply zero_is_falsy in Z;
    unfold reverse_geocode_from_gps, or_; rewrite Z, N; cbn [is_none orb].
  - reflexivity.
  - now rewrite orb_true_r.
Qed.

Lemma C10_zero_coordinate_is_absent_witness :
  reverse_geocode_from_gps (VDict [(VStr "lat", VInt 0); (VStr "lon", VFloat 2.5)]) VNone
  = Return (Answer VNone VNone).
Proof.
  apply (C10_zero_coordinate_is_absent [(VStr "lat", VInt 0); (VStr "lon", VFloat 2.5)]).
  left. split; reflexivity.
Defined.

(** ** The pre-normalized location *)

(** C3, as stated, fails: a "method" entry that is present but empty is
    not the method of the result. *)
Lemma C3_empty_method_is_replaced :
  extract_gps_from_exifread
    (VDict [(VStr "location",
             VDict [(VStr "latitude", VStr "10"); (VStr "longitude", VStr "20");
                    (VStr "method", VStr EmptyString)])])
  = Return (coordinate 10 20 (VStr "LOCATION")).
Proof. vm_compute. reflexivity. Qed.

Lemma float_none_raises : float_ VNone = Raise TypeError.
Proof. reflexivity. Qed.

(** C3 (amended): with a "location" mapping whose "latitude" and
    "longitude" [float()] accepts, the result is the two floats, with the
    location's "method" when that entry is present and truthy, and with
    "LOCATION" otherwise. *)
Theorem C3_location_coordinate (d l : list (value * value)) (la lo : float) :
  dict_get d "location" = VDict l ->
  float_ (dict_get l "latitude") = Return la ->
  float_ (dict_get l "longitude") = Return lo ->
  extract_gps_from_exifread (VDict d)
  = Return (coordinate la lo
              (if truthy (dict_get l "method") then dict_get l "method"
               else VStr "LOCATION")).
Proof.
  intros L A O. unfold extract_gps_from_exifread.
  assert (T : truthy (VDict d) = true) by (destruct d; [discriminate L | reflexivity]).
  rewrite T, L. cbn [negb]. unfold location_coordinate.
  assert (NA : is_none (dict_get l "latitude") = false).
  { destruct (dict_get l "latitude"); try reflexivity. discriminate A. }
  assert (NO : is_none (dict_get l "longitude") = false).
  { destruct (dict_get l "longitude"); try reflexivity. discriminate O. }
  rewrite NA, NO, A, O. reflexivity.
Qed.

Lemma C3_location_coordinate_witness :
  extract_gps_from_exifread
    (VDict [(VStr "location",
             VDict [(VStr "latitude", VStr "10"); (VStr "longitude", VStr "20")])])
  = Return (coordinate 10 20 (VStr "LOCATION")).
Proof.
  apply (C3_location_coordinate
           [(VStr "location",
             VDict [(VStr "latitude", VStr "10"); (VStr "longitude", VStr "20")])]
           [(VStr "latitude", VStr "10"); (VStr "longitude", VStr "20")]);
    vm_compute; reflexivity.
Defined.

(** ** Key resolution *)

Lemma norm_table_strings (ks : list value) (norm : gmap string string) :
  forallb is_str ks = true ->
  norm_table ks norm = Return (fill norm (key_strings ks)).
Proof.
  revert norm. induction ks as [|k rest IH]; intros norm H; simpl in *.
  - reflexivity.
  - apply andb_prop in H as [K R]. destruct k; try discriminate K.
    simpl. now rewrite IH.
Qed.

Lemma norm_table_raises (ks : list value) (norm : gmap string string) :
  forallb is_str ks = false -> norm_table ks norm = Raise TypeError.
Proof.
  revert norm. induction ks as [|k rest IH]; intros norm H; simpl in *.
  - discriminate.
  - destruct k; simpl in *; try reflexivity. now apply IH.
Qed.

Lemma fill_sound (ks : list string) (norm : gmap string string) (n k : string) :
  fill norm ks !! n = Some k ->
  (In k ks /\ _normalize_key k = n) \/ norm !! n = Some k.
Proof.
  revert norm. induction ks as [|a rest IH]; intros norm H; simpl in *.
  - now right.
  - apply IH in H as [[I E] | H].
    + left. split; [now right | exact E].
    + destruct (decide (_normalize_key a = n)) as [<-|Ne].
      * rewrite lookup_insert_eq in H. inversion H; subst. left. split; [now left | reflexivity].
      * rewrite lookup_insert_ne in H by exact Ne. now right.
Qed.

Lemma fill_keeps (ks : list string) (norm : gmap string string) (n : string) :
  is_Some (norm !! n) -> is_Some (fill norm ks !! n).
Proof.
  revert norm. induction ks as [|a rest IH]; intros norm H; simpl.
  - exact H.
  - apply IH. destruct (decide (_normalize_key a = n)) as [<-|Ne].
    + rewrite lookup_insert_eq. eauto.
    + now rewrite lookup_insert_ne by exact Ne.
Qed.

Lemma fill_complete (ks : list string) (norm : gmap string string) (k : string) :
  In k ks -> is_Some (fill norm ks !! _normalize_key k).
Proof.
  revert norm. induction ks as [|a rest IH]; intros norm H; simpl in *.
  - contradiction.
  - destruct H as [->|H].
    + apply fill_keeps. rewrite lookup_insert_eq. eauto.
    + now apply IH.
Qed.

Lemma first_candidate_some (norm : gmap string string) (cands : list string) (k : string) :
  first_candidate norm cands = Some k ->
  exists c, In c cands /\ norm !! _normalize_key c = Some k.
Proof.
  induction cands as [|c rest IH]; simpl; [discriminate|].
  destruct (norm !! _normalize_key c) as [k'|] eqn:E.
  - intros H. inversion H; subst. exists c. split; [now left | exact E].
  - intros H. destruct (IH H) as (c' & I & L). exists c'. split; [now right | exact L].
Qed.

Lemma first_candidate_none (norm : gmap string string) (cands : list string) :
  first_candidate norm cands = None ->
  forall c, In c cands -> norm !! _normalize_key c = None.
Proof.
  induction cands as [|c rest IH]; simpl; [contradiction|].
  destruct (norm !! _normalize_key c) as [k'|] eqn:E; [discriminate|].
  intros H c' [<-|I]; [exact E | now apply IH].
Qed.

Lemma first_candidate_resolved (ks cands : list string) :
  resolved ks cands (first_candidate (fill ∅ ks) cands).
Proof.
  destruct (first_candidate (fill ∅ ks) cands) as [k|] eqn:F; simpl.
  - apply first_candidate_some in F as (c & I & L).
    apply fill_sound in L as [[K E] | L].
    + split; [exact K|]. exists c. split; [exact I | exact E].
    + rewrite lookup_empty in L. discriminate.
  - intros k c K I E.
    pose proof (first_candidate_none _ _ F c I) as N.
    pose proof (fill_complete ks ∅ k K) as [x S].
    rewrite E in S. rewrite N in S. discriminate.
Qed.

Lemma find_key_strings (d : list (value * value)) (cands : list string) :
  forallb is_str (keys d) = true ->
  _find_key (VDict d) cands
  = Return (first_candidate (fill ∅ (key_strings (keys d))) cands).
Proof.
  intros H. rewrite <- inline_find_key_dict. unfold Inline._find_key.
  rewrite inline_norm_table, (norm_table_strings _ _ H). cbn [bind].
  now rewrite inline_first_candidate.
Qed.

Lemma str_dict_keys (entries : list (string * value)) :
  forallb is_str (keys (map (fun kv => (VStr (fst kv), snd kv)) entries)) = true
  /\ key_strings (keys (map (fun kv => (VStr (fst kv), snd kv)) entries))
     = map fst entries.
Proof.
  induction entries as [|[k x] rest [IH1 IH2]]; simpl; [now split|].
  split; [exact IH1 | now rewrite IH2].
Qed.

Lemma find_key_str_dict (entries : list (string * value)) (cands : list string) :
  _find_key (str_dict entries) cands
  = Return (first_candidate (fill ∅ (map fst entries)) cands).
Proof.
  unfold str_dict. destruct (str_dict_keys entries) as [A B].
  now rewrite (find_key_strings _ _ A), B.
Qed.




(** ** The extractor does not raise *)

Lemma location_coordinate_shape (loc c : value) :
  location_coordinate loc = Some c -> is_coordinate c.
Proof.
  unfold location_coordinate. destruct loc; try discriminate.
  destruct (negb _ && negb _); [|discriminate].
  destruct (float_ (dict_get entries "latitude")) as [la|]; cbn [bind]; [|discriminate].
  destruct (float_ (dict_get entries "longitude")) as [lo|]; cbn [bind]; [|discriminate].
  intros H. inversion H. now exists la, lo, (or_ (dict_get entries "method") (VStr "LOCATION")).
Qed.

Lemma find_key_lacking (tags : list (value * value)) (spellings : list string) :
  forallb is_str (keys tags) = true -> lacks tags spellings ->
  Inline._find_key (VDict tags) spellings = Return None.
Proof.
  intros S L. rewrite inline_find_key_dict, (find_key_strings _ _ S). f_equal.
  pose proof (first_candidate_resolved (key_strings (keys tags)) spellings) as R.
  destruct (first_candidate _ spellings) as [k|]; [|reflexivity].
  destruct R as [K (c & I & E)]. exfalso. exact (L k c K I E).
Qed.

(** The EXIF steps on a tag source with string keys: a coordinate or [None]. *)
Lemma exif_steps_return (tags : list (value * value)) (a b c d : option string) :
  let r := if negb (key_truthy a && key_truthy b && key_truthy c && key_truthy d)
           then Return VNone
           else try_except
                  (let* lat := Inline._dms_to_decimal (dict_get_opt tags a)
                                                      (dict_get_opt tags b) in
                   let* lon := Inline._dms_to_decimal (dict_get_opt tags c)
                                                      (dict_get_opt tags d) in
                   Return (coordinate lat lon (VStr "EXIFREAD")))
                  (Return VNone) in
  (exists v, r = Return v /\ is_coordinate v) \/ r = Return VNone.
Proof.
  cbv zeta. destruct (negb _); [now right|].
  destruct (Inline._dms_to_decimal (dict_get_opt tags a) (dict_get_opt tags b)) as [lat|];
    cbn [bind try_except]; [|now right].
  destruct (Inline._dms_to_decimal (dict_get_opt tags c) (dict_get_opt tags d)) as [lon|];
    cbn [bind try_except]; [|now right].
  left. eexists. split; [reflexivity|]. now exists lat, lon, (VStr "EXIFREAD").
Qed.

(** C2, as stated, fails: a key that is not a [str] makes [re.sub] raise
    outside the [try]; and an input with a usable "location" gives a
    coordinate though it has none of the four GPS keys. *)
Lemma C2_integer_key_raises :
  extract_gps_from_exifread (VDict [(VInt 1, VStr "48, 51, 0")]) = Raise TypeError
  /\ extract_gps_from_exifread
       (VDict [(VStr "location",
                VDict [(VStr "latitude", VStr "10"); (VStr "longitude", VStr "20")])])
     = Return (coordinate 10 20 (VStr "LOCATION")).
Proof. split; vm_compute; reflexivity. Qed.

(** C2 (amended): on every input whose tag source (the "exif" mapping when
    there is one, else the input) has only [str] keys, and so on every
    input that is no dict, the extractor returns a coordinate dict or
    [None] and raises nothing; when no pre-normalized location is returned
    and the tag source lacks one of the four required keys the result is
    [None]; a value that is no dict gives [None], and so does the empty dict. *)
Theorem C2_extractor_returns (data : value) :
  string_keyed (tag_source data) = true ->
  ((exists v, extract_gps_from_exifread data = Return v /\ is_coordinate v)
   \/ extract_gps_from_exifread data = Return VNone)
  /\ (forall tags,
        location_coordinate (location_of data) = None ->
        tag_source data = VDict tags ->
        lacks tags latitude_names \/ lacks tags latitude_ref_names
        \/ lacks tags longitude_names \/ lacks tags longitude_ref_names ->
        extract_gps_from_exifread data = Return VNone)
  /\ (is_dict data = false -> extract_gps_from_exifread data = Return VNone)
  /\ extract_gps_from_exifread (VDict []) = Return VNone.
Proof.
  intros SK. split; [|split; [|split]].
  - unfold extract_gps_from_exifread.
    destruct (truthy data); cbn [negb]; [|now right].
    fold (location_of data).
    destruct (location_coordinate (location_of data)) as [c|] eqn:LC.
    + left. exists c. split; [reflexivity|]. eapply location_coordinate_shape, LC.
    + destruct (tag_source data) as [| | | | | | |tags]; try now right.
      simpl in SK.
      rewrite !inline_find_key_dict, !(find_key_strings _ _ SK). cbn [bind].
      apply exif_steps_return.
  - intros tags LC TS L. unfold extract_gps_from_exifread.
    destruct (truthy data); cbn [negb]; [|reflexivity].
    fold (location_of data). rewrite LC, TS. rewrite TS in SK. simpl in SK.
    destruct L as [L | [L | [L | L]]];
      pose proof (find_key_lacking tags _ SK L) as F;
      unfold latitude_names, latitude_ref_names, longitude_names, longitude_ref_names in F;
      rewrite F;
      repeat (rewrite inline_find_key_dict, (find_key_strings _ _ SK)); cbn [bind];
      cbn [key_truthy andb negb]; rewrite ?andb_false_r; reflexivity.
  - intros D. unfold extract_gps_from_exifread.
    destruct (truthy data); cbn [negb]; [|reflexivity].
    destruct data; try reflexivity. discriminate D.
  - reflexivity.
Qed.

Lemma C2_extractor_returns_witness :
  extract_gps_from_exifread
    (VDict [(VStr "GPS GPSLatitude", VStr "48, 51, 179/100");
            (VStr "GPS GPSLatitudeRef", VStr "N");
            (VStr "GPS GPSLongitude", VStr "2, 21, 3/100")])
  = Return VNone.
Proof.
  apply (proj1 (proj2 (C2_extractor_returns
           (VDict [(VStr "GPS GPSLatitude", VStr "48, 51, 179/100");
                   (VStr "GPS GPSLatitudeRef", VStr "N");
                   (VStr "GPS GPSLongitude", VStr "2, 21, 3/100")])
           eq_refl))
           [(VStr "GPS GPSLatitude", VStr "48, 51, 179/100");
            (VStr "GPS GPSLatitudeRef", VStr "N");
            (VStr "GPS GPSLongitude", VStr "2, 21, 3/100")]).
  - reflexivity.
  - reflexivity.
  - right. right. right. intros k c K C.
    simpl in K, C. intros E.
    destruct K as [<-|[<-|[<-|[]]]]; destruct C as [<-|[<-|[]]];
      vm_compute in E; discriminate E.
Defined.

(** ** Text lemmas: stripping and cutting *)

Lemma chars_text (l : list ascii) : chars (text l) = l.
Proof. apply list_ascii_of_string_of_list_ascii. Qed.

Lemma text_chars (s : string) : text (chars s) = s.
Proof. apply string_of_list_ascii_of_string. Qed.

Lemma chars_append (a b : string) : chars (a +:+ b) = chars a ++ chars b.
Proof. induction a as [|c a IH]; simpl; [reflexivity | now rewrite <- IH]. Qed.

Lemma drop_while_app {A} (p : A -> bool) (l1 l2 : list A) :
  drop_while p (l1 ++ l2)
  = match drop_while p l1 with
    | [] => drop_while p l2
    | d => d ++ l2
    end.
Proof.
  induction l1 as [|a r IH]; simpl; [reflexivity|].
  destruct (p a); [exact IH | reflexivity].
Qed.

Lemma drop_while_stop {A} (p : A -> bool) (l : list A) (x : A) (r : list A) :
  p x = false -> drop_while p (l ++ x :: r) = drop_while p l ++ x :: r.
Proof.
  intros H. rewrite drop_while_app. destruct (drop_while p l); [|reflexivity].
  simpl. now rewrite H.
Qed.

Lemma drop_while_idem {A} (p : A -> bool) (l : list A) :
  drop_while p (drop_while p l) = drop_while p l.
Proof.
  induction l as [|a r IH]; simpl; [reflexivity|].
  destruct (p a) eqn:E; [exact IH | simpl; now rewrite E].
Qed.

Lemma drop_while_suffix {A} (p : A -> bool) (l : list A) (x : A) :
  In x (drop_while p l) -> In x l.
Proof.
  induction l as [|a r IH]; simpl; [tauto|].
  destruct (p a); [intros H; right; now apply IH | tauto].
Qed.

Lemma drop_while_keeps {A} (p : A -> bool) (l : list A) (x : A) :
  In x l -> p x = false -> In x (drop_while p l).
Proof.
  intros I H. induction l as [|a r IH]; simpl in *; [contradiction|].
  destruct I as [->|I].
  - rewrite H. now left.
  - destruct (p a); [now apply IH | now right].
Qed.

(** A wider set of characters strips the same prefix when the first
    character that is kept is outside it too. *)
Lemma drop_while_wider {A} (p q : A -> bool) (l : list A) :
  (forall c, p c = true -> q c = true) ->
  match drop_while p l with [] => True | c :: _ => q c = false end ->
  drop_while q l = drop_while p l.
Proof.
  intros Sub. induction l as [|a r IH]; simpl; [reflexivity|].
  destruct (p a) eqn:E.
  - intros H. rewrite (Sub a E). now apply IH.
  - intros H. now rewrite H.
Qed.

Lemma rstrip_cons (p : ascii -> bool) (a : ascii) (r : list ascii) :
  rstrip_by p (a :: r)
  = match rstrip_by p r with
    | [] => if p a then [] else [a]
    | d => a :: d
    end.
Proof.
  unfold rstrip_by. simpl. rewrite drop_while_app.
  destruct (drop_while p (rev r)) as [|c d] eqn:E.
  - simpl. destruct (p a); reflexivity.
  - rewrite rev_app_distr. simpl.
    destruct (rev d ++ [c]) eqn:X; [destruct (rev d); discriminate X | reflexivity].
Qed.

Lemma strip_commute (p : ascii -> bool) (l : list ascii) :
  rstrip_by p (lstrip_by p l) = lstrip_by p (rstrip_by p l).
Proof.
  unfold lstrip_by. induction l as [|a r IH]; [reflexivity|].
  rewrite (rstrip_cons p a r). simpl. destruct (p a) eqn:E.
  - rewrite IH. destruct (rstrip_by p r); simpl; [reflexivity | now rewrite E].
  - rewrite (rstrip_cons p a r).
    destruct (rstrip_by p r); simpl; now rewrite E.
Qed.

Lemma rstrip_idem (p : ascii -> bool) (l : list ascii) :
  rstrip_by p (rstrip_by p l) = rstrip_by p l.
Proof. unfold rstrip_by. now rewrite rev_involutive, drop_while_idem. Qed.

Lemma strip_keeps (p : ascii -> bool) (l : list ascii) (x : ascii) :
  In x l -> p x = false -> In x (strip_by p l).
Proof.
  intros I H. unfold strip_by, rstrip_by, lstrip_by.
  apply in_rev. rewrite rev_involutive. apply drop_while_keeps; [|exact H].
  apply -> in_rev. now apply drop_while_keeps.
Qed.

Lemma drop_while_head {A} (p : A -> bool) (l : list A) (c : A) (t : list A) :
  drop_while p l = c :: t -> p c = false.
Proof.
  induction l as [|a r IH]; simpl; [discriminate|].
  destruct (p a) eqn:E; [exact IH|]. intros H. inversion H; subst. exact E.
Qed.

(** The first character kept by [lstrip] and the last kept by [rstrip]
    are characters of the stripped text. *)
Lemma lstrip_head_in_strip (p : ascii -> bool) (l : list ascii) :
  match lstrip_by p l with
  | [] => True
  | c :: _ => In c (strip_by p l)
  end.
Proof.
  destruct (lstrip_by p l) as [|c t] eqn:E; [exact I|].
  unfold lstrip_by in E. apply strip_keeps.
  - eapply drop_while_suffix. rewrite E. now left.
  - eapply drop_while_head, E.
Qed.

Lemma rstrip_last_in_strip (p : ascii -> bool) (l : list ascii) :
  match drop_while p (rev l) with
  | [] => True
  | c :: _ => In c (strip_by p l)
  end.
Proof.
  destruct (drop_while p (rev l)) as [|c t] eqn:E; [exact I|].
  unfold strip_by. rewrite strip_commute. unfold lstrip_by, rstrip_by. rewrite E.
  apply drop_while_keeps.
  - simpl. apply in_or_app. right. now left.
  - eapply drop_while_head, E.
Qed.

(** Around a character that is kept, [strip] strips each side. *)
Lemma strip_around (p : ascii -> bool) (l r : list ascii) (x : ascii) :
  p x = false ->
  strip_by p (l ++ x :: r) = lstrip_by p l ++ x :: rstrip_by p r.
Proof.
  intros H. unfold strip_by, lstrip_by, rstrip_by.
  rewrite (drop_while_stop p l x r H), rev_app_distr. simpl.
  rewrite <- app_assoc. simpl.
  rewrite (drop_while_stop p (rev r) x _ H), rev_app_distr. simpl.
  rewrite rev_involutive, <- app_assoc. reflexivity.
Qed.

Lemma cut_at (sep : ascii) (l r : list ascii) :
  ~ In sep l -> cut sep (l ++ sep :: r) = Some (l, r).
Proof.
  induction l as [|c l IH]; intros N; simpl.
  - now rewrite Ascii.eqb_refl.
  - destruct (Ascii.eqb c sep) eqn:E.
    + apply Ascii.eqb_eq in E. subst. exfalso. apply N. now left.
    + rewrite IH; [reflexivity|]. intros I. apply N. now right.
Qed.

(** ** The characters of a float literal *)

Ltac by_cases_on_char c :=
  destruct c as [[] [] [] [] [] [] [] []]; vm_compute; try reflexivity; try discriminate.

Lemma digit_lit (c : ascii) : is_digit c = true -> lit c = true.
Proof. by_cases_on_char c. Qed.

Lemma lower_lit (c : ascii) : lit (lower_char c) = lit c.
Proof. by_cases_on_char c. Qed.

Lemma float_space_isspace (c : ascii) : float_space c = true -> isspace c = true.
Proof. by_cases_on_char c. Qed.

Lemma span_digits_spec (l d r : list ascii) :
  span_digits l = (d, r) -> l = d ++ r /\ (forall c, In c d -> is_digit c = true).
Proof.
  revert d r. induction l as [|a l IH]; intros d r; simpl.
  - intros H. inversion H. split; [reflexivity | contradiction].
  - destruct (is_digit a) eqn:E.
    + destruct (span_digits l) as [d' r'] eqn:S. intros H. inversion H; subst.
      destruct (IH d' r eq_refl) as [-> F]. split; [reflexivity|].
      intros c [<-|I]; [exact E | now apply F].
    + intros H. inversion H. split; [reflexivity | contradiction].
Qed.

Lemma drop_underscores_chars (prev : ascii) (l l' : list ascii) (c : ascii) :
  drop_underscores prev l = Some l' -> In c l -> In c l' \/ c = "_"%char.
Proof.
  revert prev l'. induction l as [|a l IH]; intros prev l' H I; [contradiction|].
  simpl in H. destruct (Ascii.eqb a "_") eqn:U.
  - apply Ascii.eqb_eq in U. subst a. destruct (is_digit prev); [|discriminate].
    destruct I as [<-|I]; [now right | eapply IH; eassumption].
  - destruct (Ascii.eqb prev "_" && negb (is_digit a)); [discriminate|].
    destruct (drop_underscores a l) as [t|] eqn:D; [|discriminate].
    simpl in H. inversion H; subst. destruct I as [<-|I]; [left; now left|].
    destruct (IH a t D I) as [J|J]; [left; now right | now right].
Qed.

Lemma parse_sign_chars (l b : list ascii) (neg : bool) (c : ascii) :
  parse_sign l = (neg, b) -> In c l -> In c b \/ c = "-"%char \/ c = "+"%char.
Proof.
  unfold parse_sign. destruct l as [|a l]; [intros _ []|].
  destruct (Ascii.eqb a "-") eqn:M.
  { apply Ascii.eqb_eq in M. subst a. intros H. inversion H; subst.
    intros [<-|I]; [right; now left | now left]. }
  destruct (Ascii.eqb a "+") eqn:P.
  { apply Ascii.eqb_eq in P. subst a. intros H. inversion H; subst.
    intros [<-|I]; [right; now right | now left]. }
  assert (X : (match a with
               | "-"%char => (true, l)
               | "+"%char => (false, l)
               | _ => (false, a :: l)
               end) = (false, a :: l)).
  { revert M P. clear. by_cases_on_char a. }
  rewrite X. intros H. inversion H; subst. now left.
Qed.

Lemma parse_inf_nan_lit (b : list ascii) (f : float) (c : ascii) :
  parse_inf_nan b = Some f -> In c b -> lit c = true.
Proof.
  unfold parse_inf_nan. intros H I.
  assert (L : forall w : string,
             text (map lower_char b) = w ->
             forallb lit (chars w) = true -> lit c = true).
  { intros w <- F. rewrite chars_text in F.
    rewrite forallb_forall in F. rewrite <- lower_lit. apply F. now apply in_map. }
  destruct (String.eqb (text (map lower_char b)) "inf") eqn:E1.
  { apply String.eqb_eq in E1. now apply (L _ E1). }
  destruct (String.eqb (text (map lower_char b)) "infinity") eqn:E2.
  { apply String.eqb_eq in E2. now apply (L _ E2). }
  simpl in H.
  destruct (String.eqb (text (map lower_char b)) "nan") eqn:E3; [|discriminate].
  apply String.eqb_eq in E3. now apply (L _ E3).
Qed.

Lemma parse_number_lit (b : list ascii) (me : Z * Z) (c : ascii) :
  parse_number b = Some me -> In c b -> lit c = true.
Proof.
  unfold parse_number.
  destruct (span_digits b) as [ip r1] eqn:S1.
  apply span_digits_spec in S1 as [-> D1].
  set (tail := match r1 with "."%char :: r => span_digits r | _ => ([], r1) end).
  destruct tail as [fp r2] eqn:T. subst tail.
  assert (R1 : forall x, In x r1 -> is_digit x = true \/ x = "."%char \/ In x r2).
  { destruct r1 as [|a r]; [intros x []|].
    destruct (Ascii.eqb a ".") eqn:P.
    - apply Ascii.eqb_eq in P. subst a.
      apply span_digits_spec in T as [-> D]. intros x [<-|I]; [right; now left|].
      apply in_app_or in I as [I|I]; [left; now apply D | right; now right].
    - assert (X : (match a with "."%char => span_digits r | _ => ([], a :: r) end)
                  = ([], a :: r)).
      { revert P. clear. by_cases_on_char a. }
      rewrite X in T. inversion T; subst. intros x I. right. now right. }
  destruct (ip ++ fp) eqn:M; [discriminate|]. clear M.
  intros H I.
  assert (R2 : forall x, In x r2 -> lit x = true).
  { destruct r2 as [|e r3]; [intros x []|].
    destruct (Ascii.eqb e "e" || Ascii.eqb e "E") eqn:E; [|discriminate].
    destruct (parse_sign r3) as [eneg r4] eqn:PS.
    destruct (span_digits r4) as [ed r5] eqn:S5.
    apply span_digits_spec in S5 as [-> D5].
    destruct ed; [discriminate|]. destruct r5; [|discriminate].
    intros x [<-|J].
    - clear -E. revert E. by_cases_on_char e.
    - destruct (parse_sign_chars _ _ _ x PS J) as [K|[->| ->]]; try reflexivity.
      rewrite app_nil_r in K. now apply digit_lit, D5. }
  apply in_app_or in I as [I|I]; [now apply digit_lit, D1|].
  destruct (R1 c I) as [K|[->|K]]; [now apply digit_lit | reflexivity | now apply R2].
Qed.

(** Every character of an accepted literal, the surrounding white space
    apart, is neither white space nor a slash. *)
Lemma float_of_string_lit (s : string) (x : float) (c : ascii) :
  float_of_string s = Some x ->
  In c (strip_by float_space (chars s)) -> lit c = true.
Proof.
  unfold float_of_string. destruct (strip_by float_space (chars s)) as [|a l]; [discriminate|].
  destruct (drop_underscores Ascii.zero (a :: l)) as [l'|] eqn:D; [|discriminate].
  destruct (parse_sign l') as [neg body] eqn:PS.
  intros H I.
  destruct (drop_underscores_chars _ _ _ c D I) as [J| ->]; [|reflexivity].
  destruct (parse_sign_chars _ _ _ c PS J) as [K|[->| ->]]; try reflexivity.
  destruct (parse_inf_nan body) as [f|] eqn:PI.
  - eapply parse_inf_nan_lit; eassumption.
  - destruct (parse_number body) as [me|] eqn:PN; [|discriminate].
    eapply parse_number_lit; eassumption.
Qed.

Lemma float_of_string_ext (s1 s2 : string) :
  strip_by float_space (chars s1) = strip_by float_space (chars s2) ->
  float_of_string s1 = float_of_string s2.
Proof. intros H. unfold float_of_string. now rewrite H. Qed.

Lemma lit_not_space (c : ascii) : lit c = true -> isspace c = false.
Proof. unfold lit. destruct (isspace c); [discriminate | reflexivity]. Qed.

(** [float()] accepts a literal with or without the white space that
    [str.strip] removes on the left or on the right of it. *)
Lemma float_of_lstrip (s : string) (x : float) :
  float_of_string s = Some x ->
  float_of_string (text (lstrip_by isspace (chars s))) = Some x.
Proof.
  intros H. rewrite <- H. apply float_of_string_ext. rewrite chars_text.
  assert (E : lstrip_by isspace (chars s) = lstrip_by float_space (chars s)).
  { unfold lstrip_by. apply drop_while_wider; [exact float_space_isspace|].
    pose proof (lstrip_head_in_strip float_space (chars s)) as Hd.
    unfold lstrip_by in Hd. destruct (drop_while float_space (chars s)); [exact I|].
    apply lit_not_space. eapply float_of_string_lit; eassumption. }
  rewrite E. unfold strip_by, lstrip_by. now rewrite drop_while_idem.
Qed.

Lemma float_of_rstrip (s : string) (x : float) :
  float_of_string s = Some x ->
  float_of_string (text (rstrip_by isspace (chars s))) = Some x.
Proof.
  intros H. rewrite <- H. apply float_of_string_ext. rewrite chars_text.
  assert (E : rstrip_by isspace (chars s) = rstrip_by float_space (chars s)).
  { unfold rstrip_by. f_equal. apply drop_while_wider; [exact float_space_isspace|].
    pose proof (rstrip_last_in_strip float_space (chars s)) as Hd.
    destruct (drop_while float_space (rev (chars s))); [exact I|].
    apply lit_not_space. eapply float_of_string_lit; eassumption. }
  rewrite E. unfold strip_by. rewrite !strip_commute. now rewrite rstrip_idem.
Qed.

Lemma float_literal_no_slash (s : string) (x : float) :
  float_of_string s = Some x -> ~ In "/"%char (chars s).
Proof.
  intros H I.
  assert (L : lit "/" = true).
  { eapply float_of_string_lit; [exact H|]. apply strip_keeps; [exact I | reflexivity]. }
  discriminate L.
Qed.

(** ** Rational tokens *)

Lemma float_str_return (s : string) (x : float) :
  float_ (VStr s) = Return x -> float_of_string s = Some x.
Proof.
  unfold float_. destruct (float_of_string s); intros H; inversion H. reflexivity.
Qed.

Lemma float_str_of_literal (s : string) (x : float) :
  float_of_string s = Some x -> float_ (VStr s) = Return x.
Proof. intros H. unfold float_. now rewrite H. Qed.

(** C6: for a token a/b whose two sides are float literals, the parse is
    the float quotient of the two when the denominator is not zero, and it
    raises (ZeroDivisionError) when the denominator is zero. *)
Theorem C6_parse_rational_quotient (a b : string) (x y : float) :
  float_ (VStr a) = Return x ->
  float_ (VStr b) = Return y ->
  _parse_rational (a +:+ "/" +:+ b)
  = (if float_eq y 0 then Raise ZeroDivisionError else Return (x / y)%float).
Proof.
  intros A B. apply float_str_return in A, B.
  unfold _parse_rational, strip.
  rewrite !chars_append. change (chars "/") with ["/"%char]. cbn [app].
  rewrite (strip_around isspace (chars a) (chars b) "/" eq_refl).
  unfold split_once. rewrite chars_text, cut_at.
  - rewrite (float_str_of_literal _ _ (float_of_lstrip a x A)). cbn [bind].
    rewrite (float_str_of_literal _ _ (float_of_rstrip b y B)). cbn [bind].
    reflexivity.
  - intros I. apply (float_literal_no_slash a x A).
    eapply drop_while_suffix. exact I.
Qed.

Lemma C6_parse_rational_quotient_witness :
  _parse_rational "179/100" = Return (179 / 100)%float
  /\ _parse_rational " 1 / 0.0 " = Raise ZeroDivisionError.
Proof.
  split.
  - apply (C6_parse_rational_quotient "179" "100" 179 100); vm_compute; reflexivity.
  - apply (C6_parse_rational_quotient " 1 " " 0.0 " 1 0); vm_compute; reflexivity.
Defined.

(** ** Signs of the parsed components *)

(** *** The sign of a rounded float *)

Lemma eqb_same (b : bool) : Bool.eqb b b = true.
Proof. destruct b; reflexivity. Qed.

Lemma round_aux_sign (sx : bool) (m e : Z) (l : location) :
  has_sign sx (binary_round_aux prec emax sx m e l) = true.
Proof.
  unfold binary_round_aux.
  destruct (shr_fexp prec emax m e l) as [mrs e'].
  destruct (shr_fexp prec emax _ e' loc_Exact) as [mrs' e''].
  destruct (shr_m mrs'); [|destruct (_ <=? _)|]; simpl; try apply eqb_same; reflexivity.
Qed.

Lemma round_sign (sx : bool) (m : positive) (e : Z) :
  has_sign sx (binary_round prec emax sx m e) = true.
Proof.
  unfold binary_round. destruct (shl_align m e _) as [mz ez]. apply round_aux_sign.
Qed.

Lemma normalize_sign (z e : Z) :
  0 <= z -> has_sign false (binary_normalize prec emax z e false) = true.
Proof.
  intros H. destruct z as [|p|p]; [reflexivity | apply round_sign | lia].
Qed.

Lemma ldexp_sign (sx : bool) (y : spec_float) (e : Z) :
  has_sign sx y = true -> has_sign sx (SFldexp prec emax y e) = true.
Proof.
  destruct y as [s|s| |s m e']; simpl; auto.
  intros H. apply Bool.eqb_prop in H. subst. apply round_sign.
Qed.

Lemma opp_sign (sx : bool) (y : spec_float) :
  has_sign sx y = true -> has_sign (negb sx) (SFopp y) = true.
Proof. destruct y as [s|s| |s m e]; simpl; auto; destruct s, sx; auto. Qed.

Lemma div_sign (sx sy : bool) (x y : spec_float) :
  has_sign sx x = true -> has_sign sy y = true ->
  has_sign (xorb sx sy) (SFdiv prec emax x y) = true.
Proof.
  destruct x as [s|s| |s m e], y as [t|t| |t n f]; simpl; auto;
    intros X Y; apply Bool.eqb_prop in X, Y; subst; try apply eqb_same.
  destruct (SFdiv_core_binary prec emax (Z.pos m) e (Z.pos n) f) as [[mz ez] lz].
  apply round_aux_sign.
Qed.

Lemma SF2Prim_sign (sx : bool) (y : spec_float) :
  has_sign sx y = true -> has_sign sx (Prim2SF (SF2Prim y)) = true.
Proof.
  destruct y as [s|s| |s m e]; simpl.
  - destruct s; intros H; exact H.
  - destruct s; intros H; exact H.
  - reflexivity.
  - intros H. apply Bool.eqb_prop in H. subst sx.
    assert (F : has_sign false
                  (Prim2SF (Z.ldexp (of_uint63 (Uint63Axioms.of_Z (Z.pos m))) e)) = true).
    { rewrite FloatLemmas.Z_ldexp_spec. apply ldexp_sign.
      rewrite FloatAxioms.of_uint63_spec. apply normalize_sign.
      apply Uint63.to_Z_bounded. }
    destruct s; [|exact F].
    rewrite FloatAxioms.opp_spec. now apply (opp_sign false).
Qed.

(** A float of sign [sx] is on that side of zero, unless it is NaN. *)
Lemma sign_side (sx : bool) (d : float) :
  has_sign sx (Prim2SF d) = true ->
  (if sx then PrimFloat.leb d 0 else PrimFloat.leb 0 d) = negb (PrimFloat.is_nan d).
Proof.
  unfold PrimFloat.is_nan. rewrite negb_involutive, FloatAxioms.eqb_spec.
  destruct sx; rewrite FloatAxioms.leb_spec;
    change (Prim2SF 0) with (S754_zero false);
    destruct (Prim2SF d) as [s|s| |s m e]; simpl; try reflexivity;
    intros H; apply Bool.eqb_prop in H; subst s; try reflexivity;
    unfold SFleb, SFeqb, SFcompare;
    rewrite Z.compare_refl, Pos.compare_cont_refl; reflexivity.
Qed.

Lemma neg_if_sign (neg : bool) (f : float) :
  has_sign false (Prim2SF f) = true -> has_sign neg (Prim2SF (neg_if neg f)) = true.
Proof.
  intros H. destruct neg; [|exact H]. simpl.
  rewrite FloatAxioms.opp_spec. now apply (opp_sign false).
Qed.

Lemma parse_inf_nan_sign (body : list ascii) (f : float) :
  parse_inf_nan body = Some f -> has_sign false (Prim2SF f) = true.
Proof.
  unfold parse_inf_nan.
  destruct (_ || _); [intros H; inversion H; reflexivity|].
  destruct (String.eqb _ _); [intros H; inversion H; reflexivity | discriminate].
Qed.

Lemma float_of_decimal_sign (neg : bool) (m e : Z) :
  has_sign neg (Prim2SF (float_of_decimal neg m e)) = true.
Proof.
  unfold float_of_decimal. destruct m as [|p|p]; try (apply neg_if_sign; reflexivity).
  destruct (400 <? e); [apply neg_if_sign; reflexivity|].
  destruct (_ <=? -1076); [apply neg_if_sign; reflexivity|].
  destruct (0 <=? e) eqn:E.
  - apply neg_if_sign, SF2Prim_sign. unfold round_Z. apply normalize_sign.
    apply Z.leb_le in E. apply Z.mul_nonneg_nonneg; [lia|]. now apply Z.pow_nonneg.
  - unfold float_of_ratio. apply SF2Prim_sign.
    replace neg with (xorb neg false) at 1 by (destruct neg; reflexivity).
    apply div_sign; simpl; [apply eqb_same | reflexivity].
Qed.

Lemma drop_underscores_head (a : ascii) (l l' : list ascii) :
  drop_underscores Ascii.zero (a :: l) = Some l' -> exists r, l' = a :: r.
Proof.
  simpl. destruct (Ascii.eqb a "_"); [discriminate|]. simpl.
  destruct (drop_underscores a l) as [r|]; [|discriminate].
  intros H. inversion H. now exists r.
Qed.

Lemma parse_sign_head (a : ascii) (r : list ascii) :
  fst (parse_sign (a :: r)) = Ascii.eqb a "-".
Proof. by_cases_on_char a. Qed.

(** The sign of what [float()] reads is that of the literal. *)
Lemma float_of_string_sign (s : string) (f : float) :
  float_of_string s = Some f -> has_sign (minus_signed s) (Prim2SF f) = true.
Proof.
  unfold float_of_string, minus_signed.
  destruct (strip_by float_space (chars s)) as [|a l]; [discriminate|].
  destruct (drop_underscores Ascii.zero (a :: l)) as [l'|] eqn:D; [|discriminate].
  destruct (drop_underscores_head _ _ _ D) as [r ->].
  rewrite <- (parse_sign_head a r).
  destruct (parse_sign (a :: r)) as [neg body]. cbn [fst].
  destruct (parse_inf_nan body) as [g|] eqn:PI.
  - intros H. inversion H. apply neg_if_sign. eapply parse_inf_nan_sign; eassumption.
  - destruct (parse_number body) as [[m e]|]; [|discriminate].
    intros H. inversion H. apply float_of_decimal_sign.
Qed.

Lemma parse_rational_sign (t : string) (d : float) :
  _parse_rational t = Return d -> has_sign (token_minus t) (Prim2SF d) = true.
Proof.
  unfold _parse_rational, token_minus.
  destruct (split_once "/" (strip t)) as [[a b]|].
  - destruct (float_ (VStr a)) as [x|e] eqn:A; cbn [bind]; [|discriminate].
    destruct (float_ (VStr b)) as [y|e] eqn:B; cbn [bind]; [|discriminate].
    unfold truediv. destruct (PrimFloat.eqb y 0); [discriminate|].
    intros H. inversion H. rewrite FloatAxioms.div_spec.
    apply float_str_return in A, B.
    apply div_sign; now apply float_of_string_sign.
  - intros H. apply float_str_return in H. now apply float_of_string_sign.
Qed.

Lemma parse_rational_follows_sign (t : string) (d : float) :
  _parse_rational t = Return d -> follows_sign t d.
Proof.
  intros H. apply parse_rational_sign in H.
  split; intros M; rewrite M in H; exact (sign_side _ d H).
Qed.

(** C8, as stated, fails: a minus sign in a token goes through, and so
    does "nan", of which [0 <= nan] does not hold. *)
Lemma C8_negative_degrees :
  _parse_dms (VStr "-48, 51, 0") = Return ((-48)%float, 51%float, 0%float)
  /\ PrimFloat.leb 0 (-48) = false
  /\ _parse_dms (VStr "nan, 0, 0") = Return (nan, 0%float, 0%float)
  /\ PrimFloat.leb 0 nan = false.
Proof. repeat split; vm_compute; reflexivity. Qed.

(** C8 (amended): each component of a returned triple is the value
    [_parse_rational] gives its token, and it is non-negative or NaN when
    the token carries no minus sign, non-positive or NaN when it carries
    one (a token a/b carries one when exactly one of a and b starts with a
    minus sign). *)
Theorem C8_components_follow_token_signs (v : value) (d m s : float) :
  _parse_dms v = Return (d, m, s) ->
  exists a b c rest,
    dms_parts v = Return (a :: b :: c :: rest)
    /\ (_parse_rational a = Return d /\ follows_sign a d)
    /\ (_parse_rational b = Return m /\ follows_sign b m)
    /\ (_parse_rational c = Return s /\ follows_sign c s).
Proof.
  intros H. destruct (dms_parts v) as [parts|e] eqn:P.
  2:{ rewrite (parse_dms_split_raises v e P) in H. discriminate. }
  destruct (length parts <? 3)%nat eqn:L.
  { unfold _parse_dms in H. rewrite P in H. cbn [bind] in H. rewrite L in H.
    destruct (repr v); discriminate. }
  destruct (parts_long parts L) as (a & b & c & rest & ->).
  exists a, b, c, rest. rewrite (parse_dms_three v a b c rest P) in H.
  destruct (_parse_rational a) as [x|e] eqn:A; cbn [bind] in H; [|discriminate].
  destruct (_parse_rational b) as [y|e] eqn:B; cbn [bind] in H; [|discriminate].
  destruct (_parse_rational c) as [z|e] eqn:C; cbn [bind] in H; [|discriminate].
  inversion H; subst.
  split; [reflexivity|].
  split; [split; [reflexivity | now apply parse_rational_follows_sign]|].
  split; [split; [reflexivity | now apply parse_rational_follows_sign]|].
  split; [reflexivity | now apply parse_rational_follows_sign].
Qed.

Lemma C8_components_follow_token_signs_witness :
  exists a b c rest,
    dms_parts (VStr "[48, 51, -179/100]") = Return (a :: b :: c :: rest)
    /\ (_parse_rational a = Return 48%float /\ follows_sign a 48)
    /\ (_parse_rational b = Return 51%float /\ follows_sign b 51)
    /\ (_parse_rational c = Return (-179 / 100)%float /\ follows_sign c (-179 / 100)).
Proof.
  apply (C8_components_follow_token_signs (VStr "[48, 51, -179/100]")).
  vm_compute. reflexivity.
Defined.

(** ** Hemisphere references *)

(** The reference is turned into text after the parse: where [str(ref)]
    returns, the sign is settled by that text. *)
Lemma dms_to_decimal_value (v ref : value) (d m s : float) (r : string) :
  _parse_dms v = Return (d, m, s) ->
  str ref = Return r ->
  _dms_to_decimal v ref
  = Return (if String.eqb (strip (upper r)) "S" || String.eqb (strip (upper r)) "W"
            then (- decimal_degrees d m s)%float
            else decimal_degrees d m s).
Proof.
  intros H R. unfold _dms_to_decimal, south_or_west.
  rewrite H. cbn [bind]. rewrite R. reflexivity.
Qed.

(** Where [str(ref)] raises, the converter raises the same. *)
Lemma dms_to_decimal_ref_raises (v ref : value) (d m s : float) (e : exn) :
  _parse_dms v = Return (d, m, s) ->
  str ref = Raise e ->
  _dms_to_decimal v ref = Raise e.
Proof.
  intros H R. unfold _dms_to_decimal, south_or_west.
  rewrite H. cbn [bind]. rewrite R. reflexivity.
Qed.

Lemma SFeqb_opp (x : spec_float) : SFeqb (SFopp x) (SFopp x) = SFeqb x x.
Proof.
  destruct x as [s|s| |s m e];
    [destruct s; reflexivity | destruct s; reflexivity | reflexivity |].
  unfold SFeqb, SFopp, SFcompare.
  destruct s; cbn [negb]; rewrite Z.compare_refl, Pos.compare_cont_refl; reflexivity.
Qed.

(** Python's [==] between a float and itself is false on NaN only, and
    negation keeps that. *)
Lemma float_eq_opp (x : float) : float_eq (- x) (- x) = negb (PrimFloat.is_nan x).
Proof.
  unfold float_eq, PrimFloat.is_nan. rewrite negb_involutive.
  rewrite !FloatAxioms.eqb_spec, FloatAxioms.opp_spec. apply SFeqb_opp.
Qed.

(** C5, as stated, fails: "nan, 0, 0" is accepted by the parser, and the
    two sides of [==] are then NaN, which [==] does not hold of. *)
Lemma C5_nan_is_not_equal :
  _parse_dms (VStr "nan, 0, 0") = Return (nan, 0%float, 0%float)
  /\ _dms_to_decimal (VStr "nan, 0, 0") (VStr "S") = Return nan
  /\ _dms_to_decimal (VStr "nan, 0, 0") (VStr "N") = Return nan
  /\ float_eq nan (- nan) = false.
Proof. repeat split; vm_compute; reflexivity. Qed.

(** C5 (amended): for a value the parser accepts, with x the decimal
    degrees of its triple, the converter returns x for "N" and "E" and -x
    for "S" and "W", and in general, for a reference [str] turns into
    text, -x exactly when that text, in upper case and stripped, is "S" or
    "W" (a reference [str] raises on, an [int] of more than 4300 digits,
    makes the converter raise the same); the south result [==] the negated
    north result unless x is NaN. *)
Theorem C5_south_west_negate (v : value) (d m s : float) :
  _parse_dms v = Return (d, m, s) ->
  let x := decimal_degrees d m s in
  _dms_to_decimal v (VStr "N") = Return x
  /\ _dms_to_decimal v (VStr "S") = Return (- x)%float
  /\ _dms_to_decimal v (VStr "E") = Return x
  /\ _dms_to_decimal v (VStr "W") = Return (- x)%float
  /\ (forall ref r, str ref = Return r ->
        _dms_to_decimal v ref
        = Return (if String.eqb (strip (upper r)) "S"
                     || String.eqb (strip (upper r)) "W"
                  then (- x)%float else x))
  /\ (forall ref e, str ref = Raise e -> _dms_to_decimal v ref = Raise e)
  /\ float_eq (- x) (- x) = negb (PrimFloat.is_nan x).
Proof.
  intros H x.
  pose proof (fun ref r => dms_to_decimal_value v ref d m s r H) as R.
  split; [exact (R (VStr "N") "N" eq_refl)|]. split; [exact (R (VStr "S") "S" eq_refl)|].
  split; [exact (R (VStr "E") "E" eq_refl)|]. split; [exact (R (VStr "W") "W" eq_refl)|].
  split; [exact R|].
  split; [exact (fun ref e => dms_to_decimal_ref_raises v ref d m s e H)|].
  apply float_eq_opp.
Qed.

Lemma C5_south_west_negate_witness :
  _dms_to_decimal (VStr "48, 51, 179/100") (VStr "N") = Return paris_latitude
  /\ _dms_to_decimal (VStr "48, 51, 179/100") (VStr "S") = Return (- paris_latitude)%float
  /\ _dms_to_decimal (VStr "48, 51, 179/100") (VStr " s ") = Return (- paris_latitude)%float
  /\ _dms_to_decimal (VStr "48, 51, 179/100") (VInt (10 ^ 5000)) = Raise int_limit_error
  /\ float_eq (- paris_latitude) (- paris_latitude) = true.
Proof.
  pose proof (C5_south_west_negate (VStr "48, 51, 179/100") 48 51 (179 / 100) eq_refl)
    as (N & S & _ & _ & R & E & Q).
  split; [exact N|]. split; [exact S|]. split; [exact (R (VStr " s ") " s " eq_refl)|].
  split; [|exact Q].
  apply (E (VInt (10 ^ 5000)) int_limit_error). vm_compute. reflexivity.
Defined.

(** ** Key resolution up to white space and letter case *)

Lemma lower_space (c : ascii) : isspace (lower_char c) = isspace c.
Proof. by_cases_on_char c. Qed.

Lemma lower_lower (c : ascii) : lower_char (lower_char c) = lower_char c.
Proof. by_cases_on_char c. Qed.

Lemma filter_lowered (l : list ascii) :
  filter (fun c => negb (isspace c)) (map lower_char (filter (fun c => negb (isspace c)) l))
  = map lower_char (filter (fun c => negb (isspace c)) l).
Proof.
  induction l as [|a l IH]; [reflexivity|].
  rewrite (filter_cons _ a l).
  destruct (decide (negb (isspace a))) as [Y|N]; [|exact IH].
  cbn [map]. rewrite filter_cons, lower_space.
  destruct (decide (negb (isspace a))); [now rewrite IH | contradiction].
Qed.









(** * More of the code *)

(** ** Normal forms of keys *)

(** X1: the normal form of a key is its own normal form. *)
Theorem normalize_key_idempotent (s : string) :
  _normalize_key (_normalize_key s) = _normalize_key s.
Proof.
  unfold _normalize_key, lower, re_sub_spaces.
  rewrite !chars_text, filter_lowered, map_map. f_equal.
  apply map_ext. intros c. apply lower_lower.
Qed.

(** ** Which key is found *)

Lemma fill_last (ks : list string) (norm : gmap string string) (n k : string) :
  fill norm ks !! n = Some k ->
  (exists pre post, ks = pre ++ k :: post /\ _normalize_key k = n
                    /\ forall k', In k' post -> _normalize_key k' <> n)
  \/ (norm !! n = Some k /\ forall k', In k' ks -> _normalize_key k' <> n).
Proof.
  revert norm. induction ks as [|a rest IH]; intros norm H; simpl in H.
  - right. split; [exact H | intros k' []].
  - apply IH in H as [(pre & post & -> & E & P) | [H N]].
    + left. exists (a :: pre), post. repeat split; auto.
    + destruct (decide (_normalize_key a = n)) as [<-|Ne].
      * rewrite lookup_insert_eq in H. inversion H; subst.
        left. exists [], rest. repeat split; auto.
      * rewrite lookup_insert_ne in H by exact Ne. right. split; [exact H|].
        intros k' [<-|I]; [exact Ne | now apply N].
Qed.

Lemma first_candidate_split (norm : gmap string string) (cands : list string) (k : string) :
  first_candidate norm cands = Some k ->
  exists before c after,
    cands = before ++ c :: after
    /\ norm !! _normalize_key c = Some k
    /\ forall c', In c' before -> norm !! _normalize_key c' = None.
Proof.
  induction cands as [|c rest IH]; simpl; [discriminate|].
  destruct (norm !! _normalize_key c) as [k'|] eqn:E.
  - intros H. inversion H; subst. exists [], c, rest. repeat split; auto.
    intros c' [].
  - intros H. destruct (IH H) as (before & c0 & after & -> & L & N).
    exists (c :: before), c0, after. repeat split; auto.
    intros c' [<-|I]; [exact E | now apply N].
Qed.

(** X2: the key [_find_key] returns is the last key of the mapping, in
    insertion order, with the normal form of the first candidate that has
    the normal form of any key. *)
Theorem find_key_last_key_first_candidate
  (entries : list (string * value)) (cands : list string) (k : string) :
  _find_key (str_dict entries) cands = Return (Some k) ->
  exists pre post before c after,
    map fst entries = pre ++ k :: post
    /\ (forall k', In k' post -> _normalize_key k' <> _normalize_key k)
    /\ cands = before ++ c :: after
    /\ _normalize_key c = _normalize_key k
    /\ (forall c' k', In c' before -> In k' (map fst entries) ->
                      _normalize_key k' <> _normalize_key c').
Proof.
  rewrite find_key_str_dict. intros H. inversion H as [F]. clear H.
  apply first_candidate_split in F as (before & c & after & -> & L & N).
  apply fill_last in L as [(pre & post & E & Ek & P) | [L _]].
  2:{ rewrite lookup_empty in L. discriminate. }
  exists pre, post, before, c, after. repeat split; auto.
  - intros k' I. rewrite Ek. now apply P.
  - intros c' k' I K Eq.
    pose proof (fill_complete (map fst entries) ∅ k' K) as [x S].
    rewrite Eq, (N c' I) in S. discriminate.
Qed.

Lemma find_key_last_key_first_candidate_witness :
  exists pre post before c after,
    map fst [("gpslatitude", VInt 1); ("GPSLatitude", VInt 2); ("Make", VInt 3)]
      = pre ++ "GPSLatitude" :: post
    /\ (forall k', In k' post -> _normalize_key k' <> _normalize_key "GPSLatitude")
    /\ latitude_names = before ++ c :: after
    /\ _normalize_key c = _normalize_key "GPSLatitude"
    /\ (forall c' k', In c' before ->
          In k' (map fst [("gpslatitude", VInt 1); ("GPSLatitude", VInt 2); ("Make", VInt 3)]) ->
          _normalize_key k' <> _normalize_key c').
Proof.
  apply (find_key_last_key_first_candidate
           [("gpslatitude", VInt 1); ("GPSLatitude", VInt 2); ("Make", VInt 3)]
           latitude_names "GPSLatitude").
  vm_compute. reflexivity.
Defined.

(** ** A container and its tag map *)

Lemma find_key_empty (cands : list string) :
  Inline._find_key (VDict []) cands = Return None.
Proof.
  rewrite inline_find_key_dict. reflexivity.
Qed.

(** X3: when no pre-normalized location is returned, a container gives
    what its "exif" tag map gives when passed alone. *)
Theorem container_like_flat (d tags : list (value * value)) :
  dict_get d "exif" = VDict tags ->
  location_coordinate (location_of (VDict d)) = None ->
  location_coordinate (location_of (VDict tags)) = None ->
  is_dict (dict_get tags "exif") = false ->
  extract_gps_from_exifread (VDict d) = extract_gps_from_exifread (VDict tags).
Proof.
  intros E L1 L2 N. unfold extract_gps_from_exifread.
  assert (T : truthy (VDict d) = true) by (destruct d; [discriminate E | reflexivity]).
  rewrite T. cbn [negb]. fold (location_of (VDict d)) (location_of (VDict tags)).
  rewrite L1, L2. unfold tag_source at 1. rewrite E.
  destruct tags as [|kv tags'].
  - rewrite !find_key_empty. reflexivity.
  - cbn [truthy null negb]. unfold tag_source.
    destruct (dict_get (kv :: tags') "exif"); try reflexivity. discriminate N.
Qed.

Lemma container_like_flat_witness :
  extract_gps_from_exifread
    (VDict [(VStr "optics", VDict []);
            (VStr "exif", VDict [(VStr "GPSLatitude", VStr "48, 51, 0")])])
  = extract_gps_from_exifread (VDict [(VStr "GPSLatitude", VStr "48, 51, 0")]).
Proof.
  apply (container_like_flat
           [(VStr "optics", VDict []);
            (VStr "exif", VDict [(VStr "GPSLatitude", VStr "48, 51, 0")])]
           [(VStr "GPSLatitude", VStr "48, 51, 0")]); reflexivity.
Defined.

(** ** [exif_gps_to_decimal] *)

Lemma bare_extract (a ra b rb : value) :
  extract_gps_from_exifread (bare_tags a ra b rb)
  = try_except
      (let* lat := Inline._dms_to_decimal a ra in
       let* lon := Inline._dms_to_decimal b rb in
       Return (coordinate lat lon (VStr "EXIFREAD")))
      (Return VNone).
Proof. reflexivity. Qed.

Lemma bare_decimal (a ra b rb : value) :
  exif_gps_to_decimal (bare_tags a ra b rb)
  = try_except
      (let* lat := _dms_to_decimal a ra in
       let* lon := _dms_to_decimal b rb in
       Return (pair_of lat lon))
      (Return VNone).
Proof. reflexivity. Qed.

(** The inline converter and the module-level one return the same floats. *)
Lemma inline_dms_to_decimal_cases (v ref : value) :
  (exists x, Inline._dms_to_decimal v ref = Return x /\ _dms_to_decimal v ref = Return x)
  \/ (exists e1 e2, Inline._dms_to_decimal v ref = Raise e1 /\ _dms_to_decimal v ref = Raise e2).
Proof.
  pose proof (inline_dms_to_decimal v ref) as H.
  destruct (Inline._dms_to_decimal v ref) as [x|e1], (_dms_to_decimal v ref) as [y|e2];
    simpl in H; try contradiction.
  - subst. left. now exists y.
  - right. now exists e1, e2.
Qed.

(** X4: on a flat tag map that holds the four bare keys,
    [exif_gps_to_decimal] returns the pair (lat, lon) exactly when
    [extract_gps_from_exifread] returns the coordinate with that latitude
    and longitude, and [None] exactly when the extractor returns [None]. *)
Theorem bare_tags_extractors_agree (a ra b rb : value) :
  (forall lat lon,
      exif_gps_to_decimal (bare_tags a ra b rb) = Return (pair_of lat lon)
      <-> extract_gps_from_exifread (bare_tags a ra b rb)
          = Return (coordinate lat lon (VStr "EXIFREAD")))
  /\ (exif_gps_to_decimal (bare_tags a ra b rb) = Return VNone
      <-> extract_gps_from_exifread (bare_tags a ra b rb) = Return VNone).
Proof.
  rewrite bare_extract, bare_decimal.
  destruct (inline_dms_to_decimal_cases a ra) as [(x & -> & ->) | (e1 & e2 & -> & ->)];
    cbn [bind try_except].
  2:{ split; [intros lat lon|]; split; intros H; try reflexivity; discriminate H. }
  destruct (inline_dms_to_decimal_cases b rb) as [(y & -> & ->) | (e3 & e4 & -> & ->)];
    cbn [bind try_except].
  2:{ split; [intros lat lon|]; split; intros H; try reflexivity; discriminate H. }
  split; [intros lat lon|]; split; intros H; try discriminate H;
    inversion H; subst; reflexivity.
Qed.

(** X5: on every value that is no dict, [exif_gps_to_decimal] returns [None]. *)
Theorem exif_gps_to_decimal_not_a_dict (v : value) :
  is_dict v = false -> exif_gps_to_decimal v = Return VNone.
Proof.
  intros N. destruct v; try discriminate N; try reflexivity;
    unfold exif_gps_to_decimal, all_in, need, contains, subscript; cbn [bind];
    repeat match goal with
           | |- context [if ?b then _ else _] => destruct b; cbn [bind try_except]
           end; reflexivity.
Qed.

Lemma exif_gps_to_decimal_not_a_dict_witness :
  exif_gps_to_decimal (VStr "lat lon") = Return VNone.
Proof. apply (exif_gps_to_decimal_not_a_dict (VStr "lat lon")). reflexivity. Defined.

Lemma all_in_dict (d : list (value * value)) (ks : list string) :
  all_in (VDict d) ks = Return (forallb (has_key d) ks).
Proof.
  induction ks as [|k ks IH]; [reflexivity|].
  cbn [all_in contains bind forallb]. fold (has_key d k).
  destruct (has_key d k); [exact IH | reflexivity].
Qed.

(** X6: when a dict has both "lat" and "lon", the result is read from
    these two entries alone: the pair of their floats, or [None] when
    [float()] rejects one of them, whatever GPS tags the dict also holds. *)
Theorem exif_gps_to_decimal_lat_lon_first (d : list (value * value)) :
  has_key d "lat" = true -> has_key d "lon" = true ->
  exif_gps_to_decimal (VDict d)
  = match float_ (dict_get d "lat"), float_ (dict_get d "lon") with
    | Return x, Return y => Return (pair_of x y)
    | _, _ => Return VNone
    end.
Proof.
  intros A B. unfold exif_gps_to_decimal, contains, subscript. fold (has_key d "lat").
  rewrite A. cbn [bind]. fold (has_key d "lon"). rewrite B. cbn [bind].
  destruct (float_ (dict_get d "lat")); cbn [bind try_except]; [|reflexivity].
  destruct (float_ (dict_get d "lon")); reflexivity.
Qed.

Lemma exif_gps_to_decimal_lat_lon_first_witness :
  exif_gps_to_decimal
    (VDict [(VStr "lat", VStr "north"); (VStr "lon", VInt 2);
            (VStr "GPSLatitude", VStr "48, 51, 0"); (VStr "GPSLatitudeRef", VStr "N");
            (VStr "GPSLongitude", VStr "2, 21, 0"); (VStr "GPSLongitudeRef", VStr "E")])
  = Return VNone.
Proof.
  apply (exif_gps_to_decimal_lat_lon_first
           [(VStr "lat", VStr "north"); (VStr "lon", VInt 2);
            (VStr "GPSLatitude", VStr "48, 51, 0"); (VStr "GPSLatitudeRef", VStr "N");
            (VStr "GPSLongitude", VStr "2, 21, 0"); (VStr "GPSLongitudeRef", VStr "E")]);
    reflexivity.
Defined.

(** X7: a dict that lacks "lat" or "lon", and lacks one of the four bare
    keys under its exact spelling, gives [None]: the keys are not
    normalized here, so the names the tag reader writes ("GPS GPSLatitude")
    are not found. *)
Theorem exif_gps_to_decimal_exact_keys (d : list (value * value)) (k : string) :
  has_key d "lat" && has_key d "lon" = false ->
  In k need -> has_key d k = false ->
  exif_gps_to_decimal (VDict d) = Return VNone.
Proof.
  intros B I K.
  assert (F : forallb (has_key d) need = false).
  { destruct (forallb (has_key d) need) eqn:E; [|reflexivity].
    rewrite forallb_forall in E. rewrite (E k I) in K. discriminate. }
  unfold exif_gps_to_decimal. cbn [contains bind].
  fold (has_key d "lat") (has_key d "lon").
  destruct (has_key d "lat"); cbn [bind];
    [destruct (has_key d "lon"); [discriminate B|] |];
    cbn [bind]; rewrite all_in_dict, F; reflexivity.
Qed.

Lemma exif_gps_to_decimal_exact_keys_witness :
  exif_gps_to_decimal paris_tags = Return VNone.
Proof.
  apply (exif_gps_to_decimal_exact_keys
           [(VStr "GPS GPSLatitude", VStr "48, 51, 179/100");
            (VStr "GPS GPSLatitudeRef", VStr "N");
            (VStr "GPS GPSLongitude", VStr "2, 21, 3/100");
            (VStr "GPS GPSLongitudeRef", VStr "E")] "GPSLatitude");
    [reflexivity | now left | reflexivity].
Defined.

(** ** The geocoding wrapper *)

Lemma extract_return_shape (data v : value) :
  extract_gps_from_exifread data = Return v -> v = VNone \/ is_coordinate v.
Proof.
  unfold extract_gps_from_exifread.
  destruct (truthy data); cbn [negb]; [|intros H; inversion H; now left].
  destruct (location_coordinate _) as [c|] eqn:LC.
  { intros H. inversion H; subst. right. eapply location_coordinate_shape, LC. }
  destruct (tag_source data) as [| | | | | | |tags];
    try (intros H; inversion H; now left).
  destruct (Inline._find_key (VDict tags) ["GPS GPSLatitude"; "GPSLatitude"]) as [k1|];
    cbn [bind]; [|discriminate].
  destruct (Inline._find_key (VDict tags) ["GPS GPSLatitudeRef"; "GPSLatitudeRef"]) as [k2|];
    cbn [bind]; [|discriminate].
  destruct (Inline._find_key (VDict tags) ["GPS GPSLongitude"; "GPSLongitude"]) as [k3|];
    cbn [bind]; [|discriminate].
  destruct (Inline._find_key (VDict tags) ["GPS GPSLongitudeRef"; "GPSLongitudeRef"]) as [k4|];
    cbn [bind]; [|discriminate].
  intros H. destruct (exif_steps_return tags k1 k2 k3 k4) as [(c & E & C) | E];
    cbv zeta in E; rewrite E in H; inversion H; subst; [now right | now left].
Qed.

(** X8: whatever coordinate the extractor returns, the wrapper geocodes
    it at its latitude and longitude, zero and NaN included: a zero under
    the key "latitude" is not taken for a missing value. *)
Theorem extracted_coordinate_is_geocoded (data c lon : value) :
  extract_gps_from_exifread data = Return c ->
  truthy c = true ->
  exists la lo m,
    c = coordinate la lo m
    /\ reverse_geocode_from_gps c lon = Return (Geocode la lo).
Proof.
  intros E T. apply extract_return_shape in E as [-> | (la & lo & m & ->)].
  - discriminate T.
  - exists la, lo, m. split; reflexivity.
Qed.

Lemma extracted_coordinate_is_geocoded_witness :
  exists la lo m,
    coordinate 0 0 (VStr "EXIFREAD") = coordinate la lo m
    /\ reverse_geocode_from_gps (coordinate 0 0 (VStr "EXIFREAD")) VNone
       = Return (Geocode la lo).
Proof.
  apply (extracted_coordinate_is_geocoded
           (bare_tags (VStr "0, 0, 0") (VStr "N") (VStr "0, 0, 0") (VStr "E"))
           (coordinate 0 0 (VStr "EXIFREAD")) VNone);
    vm_compute; reflexivity.
Defined.

(** X9: the two calling conventions agree: the dict form does what the
    positional form does on the latitude and longitude it resolves, when
    neither is [None] and the latitude is no dict itself. *)
Theorem dict_form_like_positional (gps : list (value * value)) (lon : value) :
  is_none (gps_lat gps) = false -> is_none (gps_lon gps) = false ->
  is_dict (gps_lat gps) = false ->
  reverse_geocode_from_gps (VDict gps) lon
  = reverse_geocode_from_gps (gps_lat gps) (gps_lon gps).
Proof.
  intros A B D. unfold reverse_geocode_from_gps. fold (gps_lat gps) (gps_lon gps).
  rewrite A, B. cbn [orb].
  destruct (gps_lat gps); try reflexivity. discriminate D.
Qed.

Lemma dict_form_like_positional_witness :
  reverse_geocode_from_gps (VDict [(VStr "latitude", VStr "48.85"); (VStr "lon", VInt 2)]) VNone
  = reverse_geocode_from_gps (VStr "48.85") (VInt 2).
Proof.
  apply (dict_form_like_positional [(VStr "latitude", VStr "48.85"); (VStr "lon", VInt 2)]);
    reflexivity.
Defined.

(** X10: the dict form of the wrapper has no [try]: it raises exactly
    when both coordinates are resolved and [float()] rejects the latitude,
    or accepts it and rejects the longitude, and it raises what [float()]
    raised. *)
Theorem dict_form_raises_iff (gps : list (value * value)) (lon : value) (e : exn) :
  reverse_geocode_from_gps (VDict gps) lon = Raise e
  <-> is_none (gps_lat gps) = false /\ is_none (gps_lon gps) = false
      /\ (float_ (gps_lat gps) = Raise e
          \/ exists x, float_ (gps_lat gps) = Return x /\ float_ (gps_lon gps) = Raise e).
Proof.
  unfold reverse_geocode_from_gps. fold (gps_lat gps) (gps_lon gps).
  destruct (is_none (gps_lat gps)); cbn [orb].
  { split; [discriminate | intros (H & _); discriminate H]. }
  destruct (is_none (gps_lon gps)).
  { split; [discriminate | intros (_ & H & _); discriminate H]. }
  destruct (float_ (gps_lat gps)) as [x|e1]; cbn [bind].
  - destruct (float_ (gps_lon gps)) as [y|e2]; cbn [bind].
    + split; [discriminate | intros (_ & _ & [H | (x' & _ & H)]); discriminate H].
    + split.
      * intros H. inversion H; subst. repeat split. right. now exists x.
      * intros (_ & _ & [H | (x' & _ & H)]); [discriminate H | inversion H; reflexivity].
  - split.
    + intros H. inversion H; subst. repeat split. now left.
    + intros (_ & _ & [H | (x' & H & _)]); [inversion H; reflexivity | discriminate H].
Qed.

Lemma dict_form_raises_iff_witness :
  reverse_geocode_from_gps (VDict [(VStr "lat", VStr "north"); (VStr "lon", VInt 2)]) VNone
  = Raise (float_error "north").
Proof.
  apply (proj2 (dict_form_raises_iff [(VStr "lat", VStr "north"); (VStr "lon", VInt 2)]
                  VNone (float_error "north"))).
  split; [reflexivity|]. split; [reflexivity|]. left. vm_compute. reflexivity.
Defined.

(** ** The reverse geocoder *)

Lemma reverse_geocode_place (http_get : value -> value -> option response)
  (lat lon : value) (body addr : list (value * value)) :
  http_get lat lon = Some (ok_json body) ->
  get_default body "address" (VDict []) = VDict addr ->
  reverse_geocode_from_latlon http_get lat lon
  = (or_ (or_ (dict_get addr "city") (dict_get addr "town")) (dict_get addr "village"),
     dict_get addr "country").
Proof.
  intros G A. unfold reverse_geocode_from_latlon. rewrite G.
  cbn [status_code json ok_json]. change (200 =? 200) with true. cbv iota.
  rewrite A. cbn [get_ bind]. unfold or_.
  destruct (truthy (dict_get addr "city")) eqn:C; cbn [bind]; [now rewrite C|].
  destruct (truthy (dict_get addr "town")); reflexivity.
Qed.

(** X11: from a response with status 200 whose body is a JSON object with
    an object under "address" (the empty one when there is no such entry),
    [reverse_geocode_from_latlon] returns the place: the city is the first
    truthy one of "city", "town" and "village" (the "village" entry when
    none is) and the country is the "country" entry.  It returns a place
    from such a response only: in every other case, and without raising,
    it returns (None, None). *)
Theorem reverse_geocode_place_or_nothing
  (http_get : value -> value -> option response) (lat lon : value) :
  (forall body addr,
     http_get lat lon = Some (ok_json body) ->
     get_default body "address" (VDict []) = VDict addr ->
     reverse_geocode_from_latlon http_get lat lon
     = (or_ (or_ (dict_get addr "city") (dict_get addr "town"))
            (dict_get addr "village"),
        dict_get addr "country"))
  /\ (reverse_geocode_from_latlon http_get lat lon = (VNone, VNone)
      \/ exists body addr,
           http_get lat lon = Some (ok_json body)
           /\ get_default body "address" (VDict []) = VDict addr
           /\ reverse_geocode_from_latlon http_get lat lon
              = (or_ (or_ (dict_get addr "city") (dict_get addr "town"))
                     (dict_get addr "village"),
                 dict_get addr "country")).
Proof.
  split; [exact (reverse_geocode_place http_get lat lon)|].
  destruct (http_get lat lon) as [[status body]|] eqn:G.
  2:{ left. unfold reverse_geocode_from_latlon. now rewrite G. }
  destruct (status =? 200) eqn:S.
  2:{ left. unfold reverse_geocode_from_latlon. rewrite G. cbn [status_code]. now rewrite S. }
  apply Z.eqb_eq in S. subst status.
  destruct body as [data|].
  2:{ left. unfold reverse_geocode_from_latlon. now rewrite G. }
  destruct data as [| | | | | | |d];
    try (left; unfold reverse_geocode_from_latlon; rewrite G; reflexivity).
  destruct (get_default d "address" (VDict [])) as [| | | | | | |addr] eqn:A;
    try (left; unfold reverse_geocode_from_latlon; rewrite G;
         cbn [status_code json]; change (200 =? 200) with true; cbv iota;
         rewrite A; reflexivity).
  right. exists d, addr. split; [reflexivity|]. split; [exact A|].
  exact (reverse_geocode_place http_get lat lon d addr G A).
Qed.

Lemma reverse_geocode_place_or_nothing_witness :
  reverse_geocode_from_latlon
    (fun _ _ => Some (ok_json [(VStr "address",
                                VDict [(VStr "town", VStr "Paris");
                                       (VStr "country", VStr "France")])]))
    (VFloat paris_latitude) (VFloat paris_longitude)
  = (VStr "Paris", VStr "France").
Proof.
  apply (proj1 (reverse_geocode_place_or_nothing
                  (fun _ _ => Some (ok_json [(VStr "address",
                                              VDict [(VStr "town", VStr "Paris");
                                                     (VStr "country", VStr "France")])]))
                  (VFloat paris_latitude) (VFloat paris_longitude))
           [(VStr "address", VDict [(VStr "town", VStr "Paris");
                                    (VStr "country", VStr "France")])]
           [(VStr "town", VStr "Paris"); (VStr "country", VStr "France")]);
    reflexivity.
Defined.

(** ** The tag reader and the image pipeline *)

Lemma dict_set_shape (d : list (value * value)) (k s : string) :
  forallb is_str (keys d) = true -> str_valued d = true ->
  forallb is_str (keys (dict_set d k (VStr s))) = true
  /\ str_valued (dict_set d k (VStr s)) = true
  /\ (forall n, In n (key_strings (keys (dict_set d k (VStr s)))) ->
                n = k \/ In n (key_strings (keys d))).
Proof.
  unfold str_valued, keys.
  induction d as [|[k' x] d IH]; intros K V.
  - repeat split. intros n [<-|[]]. now left.
  - simpl in K, V. apply andb_prop in K as [K1 K2]. apply andb_prop in V as [V1 V2].
    destruct k' as [| | | |s'| | |]; try discriminate K1.
    simpl dict_set. destruct (is_key k (VStr s', x)) eqn:E.
    + simpl. rewrite K2, V2. repeat split. intros n I. now right.
    + destruct (IH K2 V2) as (A & B & C). simpl. rewrite A, B, V1.
      repeat split. intros n [<-|I]; [right; now left|].
      destruct (C n I) as [->|J]; [now left | right; now right].
Qed.

Lemma copy_tags_shape (raw : list (string * tag)) (tags tags' : list (value * value))
  (err : option string) :
  copy_tags raw tags = (tags', err) ->
  forallb is_str (keys tags) = true -> str_valued tags = true ->
  forallb is_str (keys tags') = true
  /\ str_valued tags' = true
  /\ (forall n, In n (key_strings (keys tags')) ->
                In n (map fst raw) \/ In n (key_strings (keys tags))).
Proof.
  revert tags. induction raw as [|[name t] raw IH]; intros tags H K V.
  - inversion H; subst. repeat split; auto.
  - cbn [copy_tags] in H.
    assert (Step : forall s, copy_tags raw (dict_set tags name (VStr s)) = (tags', err) ->
              forallb is_str (keys tags') = true /\ str_valued tags' = true
              /\ (forall n, In n (key_strings (keys tags')) ->
                     In n (map fst ((name, t) :: raw)) \/ In n (key_strings (keys tags)))).
    { intros s Hs. destruct (dict_set_shape tags name s K V) as (A & B & C).
      destruct (IH _ Hs A B) as (A' & B' & C'). repeat split; auto.
      intros n I. destruct (C' n I) as [J|J]; [left; now right|].
      destruct (C n J) as [->|J']; [left; now left | now right]. }
    destruct (tag_str t) as [s|]; [now apply (Step s)|].
    destruct (tag_repr t) as [s|msg]; [now apply (Step s)|].
    inversion H; subst. repeat split; auto.
Qed.

(** What the tag reader returns: a dict of [str] keys and [str] values
    whose keys are tag names of the library, or "error". *)
Lemma reader_output_shape
  (process_file : list Byte.byte -> outcome (list (string * tag)))
  (image_bytes : list Byte.byte) :
  exists tags,
    extract_exif_with_exifread process_file image_bytes = VDict tags
    /\ forallb is_str (keys tags) = true
    /\ str_valued tags = true
    /\ (forall n, In n (key_strings (keys tags)) ->
          n = "error"
          \/ exists raw, process_file image_bytes = Done raw /\ In n (map fst raw)).
Proof.
  unfold extract_exif_with_exifread.
  destruct (process_file image_bytes) as [raw|msg].
  - destruct (copy_tags raw []) as [tags err] eqn:C.
    destruct (copy_tags_shape raw [] tags err C eq_refl eq_refl) as (A & B & D).
    destruct err as [msg|].
    + destruct (dict_set_shape tags "error" msg A B) as (A' & B' & D').
      eexists. split; [reflexivity|]. repeat split; auto.
      intros n I. destruct (D' n I) as [->|J]; [now left|].
      destruct (D n J) as [K|[]]. right. now exists raw.
    + exists tags. repeat split; auto.
      intros n I. destruct (D n I) as [K|[]]. right. now exists raw.
  - eexists. split; [reflexivity|]. repeat split.
    intros n [<-|[]]. now left.
Qed.

Lemma str_valued_get (d : list (value * value)) (k : string) :
  str_valued d = true -> is_dict (dict_get d k) = false /\ location_coordinate (dict_get d k) = None.
Proof.
  intros V. unfold dict_get. destruct (find (is_key k) d) as [[k' x]|] eqn:F; [|now split].
  apply find_some in F as [I _]. unfold str_valued in V. rewrite forallb_forall in V.
  specialize (V _ I). cbn in V. destruct x; try discriminate V. now split.
Qed.

(** The EXIF steps alone return [None] or a coordinate tagged "EXIFREAD". *)
Lemma exif_steps_exifread (tags : list (value * value)) (a b c d : option string) :
  let r := if negb (key_truthy a && key_truthy b && key_truthy c && key_truthy d)
           then Return VNone
           else try_except
                  (let* lat := Inline._dms_to_decimal (dict_get_opt tags a)
                                                      (dict_get_opt tags b) in
                   let* lon := Inline._dms_to_decimal (dict_get_opt tags c)
                                                      (dict_get_opt tags d) in
                   Return (coordinate lat lon (VStr "EXIFREAD")))
                  (Return VNone) in
  r = Return VNone \/ exists lat lon, r = Return (coordinate lat lon (VStr "EXIFREAD")).
Proof.
  cbv zeta. destruct (negb _); [now left|].
  destruct (Inline._dms_to_decimal (dict_get_opt tags a) (dict_get_opt tags b)) as [lat|];
    cbn [bind try_except]; [|now left].
  destruct (Inline._dms_to_decimal (dict_get_opt tags c) (dict_get_opt tags d)) as [lon|];
    cbn [bind try_except]; [|now left].
  right. now exists lat, lon.
Qed.

(** The extractor on a flat map of [str] keys and [str] values. *)
Lemma extract_flat_strings (tags : list (value * value)) :
  forallb is_str (keys tags) = true -> str_valued tags = true ->
  extract_gps_from_exifread (VDict tags) = Return VNone
  \/ exists lat lon,
       extract_gps_from_exifread (VDict tags)
       = Return (coordinate lat lon (VStr "EXIFREAD")).
Proof.
  intros K V. unfold extract_gps_from_exifread.
  destruct (truthy (VDict tags)); cbn [negb]; [|now left].
  destruct (str_valued_get tags "location" V) as [_ L]. rewrite L.
  destruct (str_valued_get tags "exif" V) as [E _].
  unfold tag_source. destruct (dict_get tags "exif"); try discriminate E;
    rewrite !inline_find_key_dict, !(find_key_strings _ _ K); cbn [bind];
    apply exif_steps_exifread.
Qed.

(** X12: on what the tag reader returns, whatever the library does, the
    extractor raises nothing: it returns [None] or a coordinate whose
    method is "EXIFREAD". *)
Theorem extractor_accepts_reader_output
  (process_file : list Byte.byte -> outcome (list (string * tag)))
  (image_bytes : list Byte.byte) :
  extract_gps_from_exifread (extract_exif_with_exifread process_file image_bytes)
  = Return VNone
  \/ exists lat lon,
       extract_gps_from_exifread (extract_exif_with_exifread process_file image_bytes)
       = Return (coordinate lat lon (VStr "EXIFREAD")).
Proof.
  destruct (reader_output_shape process_file image_bytes) as (tags & -> & K & V & _).
  now apply extract_flat_strings.
Qed.

(** X13: [get_city_country_from_image] returns the defaults, or a pair
    from the geocoder of which the city or the country is truthy; it never
    hands on a pair of two empty answers. *)
Theorem image_place_or_defaults
  (download : string -> outcome (list Byte.byte))
  (process_file : list Byte.byte -> outcome (list (string * tag)))
  (http_get : value -> value -> option response)
  (minio_url : string) (default_city default_country : value) :
  let place := get_city_country_from_image download process_file http_get
                 minio_url default_city default_country in
  place = (default_city, default_country)
  \/ truthy (fst place) || truthy (snd place) = true.
Proof.
  cbv zeta. unfold get_city_country_from_image.
  destruct (download minio_url) as [image_bytes|]; [|now left].
  destruct (extract_gps_from_exifread _) as [gps|]; cbn [bind]; [|now left].
  destruct (truthy gps); [|now left].
  destruct (subscript gps "latitude") as [lat|]; cbn [bind]; [|now left].
  destruct (subscript gps "longitude") as [lon|]; cbn [bind]; [|now left].
  destruct (reverse_geocode_from_latlon http_get lat lon) as [city country].
  destruct (truthy city || truthy country) eqn:T; [right; exact T | now left].
Qed.

Lemma extract_lacking (tags : list (value * value)) (spellings : list string) :
  forallb is_str (keys tags) = true -> str_valued tags = true ->
  In spellings gps_spellings -> lacks tags spellings ->
  extract_gps_from_exifread (VDict tags) = Return VNone.
Proof.
  intros K V S L. unfold extract_gps_from_exifread.
  destruct (truthy (VDict tags)); cbn [negb]; [|reflexivity].
  destruct (str_valued_get tags "location" V) as [_ LC]. rewrite LC.
  destruct (str_valued_get tags "exif" V) as [E _].
  assert (TS : tag_source (VDict tags) = VDict tags).
  { unfold tag_source. destruct (dict_get tags "exif"); try reflexivity. discriminate E. }
  rewrite TS. pose proof (find_key_lacking tags spellings K L) as F.
  destruct S as [<-|[<-|[<-|[<-|[]]]]];
    unfold latitude_names, latitude_ref_names, longitude_names, longitude_ref_names in F;
    rewrite F;
    repeat (rewrite inline_find_key_dict, (find_key_strings _ _ K)); cbn [bind];
    cbn [key_truthy andb negb]; rewrite ?andb_false_r; reflexivity.
Qed.

Lemma error_is_no_spelling (spellings : list string) (c : string) :
  In spellings gps_spellings -> In c spellings ->
  _normalize_key "error" <> _normalize_key c.
Proof.
  intros [<-|[<-|[<-|[<-|[]]]]] [<-|[<-|[]]]; vm_compute; discriminate.
Qed.

(** X14: when the download fails, when the tag reader fails, or when no
    tag name of the image has the normal form of one of the spellings of a
    required GPS key, [get_city_country_from_image] returns the defaults,
    whatever the geocoding service would answer. *)
Theorem image_without_gps_gives_defaults
  (download : string -> outcome (list Byte.byte))
  (process_file : list Byte.byte -> outcome (list (string * tag)))
  (http_get : value -> value -> option response)
  (minio_url : string) (default_city default_country : value) :
  (match download minio_url with
   | Failed _ => True
   | Done image_bytes =>
       match process_file image_bytes with
       | Failed _ => True
       | Done raw =>
           exists spellings, In spellings gps_spellings
                             /\ names_lack (map fst raw) spellings
       end
   end) ->
  get_city_country_from_image download process_file http_get
    minio_url default_city default_country
  = (default_city, default_country).
Proof.
  intros H. unfold get_city_country_from_image.
  destruct (download minio_url) as [image_bytes|]; [|reflexivity].
  assert (E : extract_gps_from_exifread
                (extract_exif_with_exifread process_file image_bytes) = Return VNone).
  { destruct (reader_output_shape process_file image_bytes) as (tags & -> & K & V & N).
    destruct (process_file image_bytes) as [raw|msg].
    - destruct H as (spellings & S & L).
      apply (extract_lacking tags spellings K V S).
      intros n c I C. destruct (N n I) as [->|(raw' & R & J)].
      + now apply (error_is_no_spelling spellings).
      + inversion R; subst. now apply L.
    - apply (extract_lacking tags latitude_names K V); [now left|].
      intros n c I C. destruct (N n I) as [->|(raw' & R & _)]; [|discriminate R].
      apply (error_is_no_spelling latitude_names); [now left | exact C]. }
  rewrite E. reflexivity.
Qed.

Lemma image_without_gps_gives_defaults_witness :
  get_city_country_from_image
    (fun _ => Done [])
    (fun _ => Done [("Image Make", {| tag_str := Some "Canon"; tag_repr := Done "Canon" |})])
    (fun _ _ => None) "http://minio:9000/bucket/a.jpg" (VStr "Paris") (VStr "France")
  = (VStr "Paris", VStr "France").
Proof.
  apply (image_without_gps_gives_defaults
           (fun _ => Done [])
           (fun _ => Done [("Image Make",
                            {| tag_str := Some "Canon"; tag_repr := Done "Canon" |})])).
  exists latitude_names. split; [now left|].
  intros n c [<-|[]] [<-|[<-|[]]]; vm_compute; discriminate.
Defined.

(** ** Bucket and object name *)

Lemma split_on_cons (sep : ascii) (l : list ascii) :
  exists p ps, split_on sep l = p :: ps.
Proof.
  induction l as [|c r (p & ps & IH)]; simpl; [now exists [], []|].
  destruct (Ascii.eqb c sep); [eexists; eexists; reflexivity|].
  rewrite IH. eexists; eexists; reflexivity.
Qed.

(** [sep.join(s.split(sep))] is [s]. *)
Lemma join_split (sep : ascii) (l : list ascii) :
  join_on sep (split_on sep l) = l.
Proof.
  induction l as [|c r IH]; [reflexivity|]. simpl.
  destruct (Ascii.eqb c sep) eqn:E.
  - apply Ascii.eqb_eq in E. subst c.
    destruct (split_on_cons sep r) as (p & ps & S). rewrite S in *.
    cbn [join_on app]. cbn [join_on] in IH. now rewrite IH.
  - destruct (split_on_cons sep r) as (p & ps & S). rewrite S in *.
    cbn [join_on] in *. destruct ps; simpl; now rewrite <- IH.
Qed.

Lemma split_head (sep : ascii) (l p : list ascii) (ps : list (list ascii)) :
  split_on sep l = p :: ps -> ~ In sep p.
Proof.
  revert p ps. induction l as [|c r IH]; intros p ps; simpl.
  - intros H. inversion H. intros [].
  - destruct (Ascii.eqb c sep) eqn:E.
    + intros H. inversion H. intros [].
    + destruct (split_on_cons sep r) as (p' & ps' & S). rewrite S.
      intros H. injection H as <- <-. intros [->|I].
      * rewrite Ascii.eqb_refl in E. discriminate.
      * exact (IH p' ps' S I).
Qed.

Lemma split_length (sep : ascii) (l : list ascii) :
  (length (split_on sep l) <? 2)%nat = negb (existsb (Ascii.eqb sep) l).
Proof.
  induction l as [|c r IH]; [reflexivity|]. simpl.
  rewrite (Ascii.eqb_sym sep c). destruct (Ascii.eqb c sep); simpl.
  - destruct (split_on_cons sep r) as (p & ps & ->). reflexivity.
  - destruct (split_on_cons sep r) as (p & ps & S). rewrite S in *. exact IH.
Qed.

(** X15: when [bucket_and_object] returns, the bucket is not empty and
    holds no slash, and bucket, slash and object name put together are the
    path without its leading slashes. *)
Theorem bucket_and_object_round_trip (url path bucket object_name : string) :
  bucket_and_object url path = Return (bucket, object_name) ->
  bucket <> EmptyString
  /\ ~ In "/"%char (chars bucket)
  /\ lstrip_by (Ascii.eqb "/") (chars path)
     = chars bucket ++ "/"%char :: chars object_name.
Proof.
  unfold bucket_and_object.
  set (l := lstrip_by (Ascii.eqb "/") (chars path)).
  destruct (length (split_on "/" l) <? 2)%nat eqn:L; [discriminate|].
  pose proof (join_split "/" l) as J.
  destruct (split_on_cons "/" l) as (p & ps & S).
  pose proof (split_head "/" l p ps S) as N.
  rewrite S in *. cbn [nth skipn]. intros H. inversion H; subst. clear H.
  rewrite !chars_text.
  destruct ps as [|q qs]; [discriminate L|].
  change (join_on "/" (p :: q :: qs)) with (p ++ "/"%char :: join_on "/" (q :: qs)) in J.
  split; [|split; [exact N | symmetry; exact J]].
  intros E. destruct p as [|c p]; [|discriminate E].
  cbn [app] in J. unfold l, lstrip_by in J.
  symmetry in J. apply drop_while_head in J. discriminate J.
Qed.

Lemma bucket_and_object_round_trip_witness :
  "piano-sessions" <> EmptyString
  /\ ~ In "/"%char (chars "piano-sessions")
  /\ lstrip_by (Ascii.eqb "/") (chars "/piano-sessions/2024/a.jpg")
     = chars "piano-sessions" ++ "/"%char :: chars "2024/a.jpg".
Proof.
  apply (bucket_and_object_round_trip "http://minio:9000/piano-sessions/2024/a.jpg"
           "/piano-sessions/2024/a.jpg" "piano-sessions" "2024/a.jpg").
  vm_compute. reflexivity.
Defined.

(** X16: [bucket_and_object] raises the [ValueError] that names the URL
    exactly when the path without its leading slashes holds no slash, and
    it returns otherwise. *)
Theorem bucket_and_object_needs_a_slash (url path : string) :
  (existsb (Ascii.eqb "/") (lstrip_by (Ascii.eqb "/") (chars path)) = false
   /\ bucket_and_object url path
      = Raise (ValueError ("Invalid MinIO image URL: " +:+ url)))
  \/ (existsb (Ascii.eqb "/") (lstrip_by (Ascii.eqb "/") (chars path)) = true
      /\ exists bucket object_name,
           bucket_and_object url path = Return (bucket, object_name)).
Proof.
  unfold bucket_and_object. rewrite split_length.
  destruct (existsb (Ascii.eqb "/") (lstrip_by (Ascii.eqb "/") (chars path))).
  - right. split; [reflexivity|]. eexists; eexists; reflexivity.
  - left. split; reflexivity.
Qed.

(** ** Sniffing the image type *)

Lemma bytes_eqb_eq (a b : list Byte.byte) : bytes_eqb a b = true -> a = b.
Proof.
  revert b. induction a as [|x a IH]; intros [|y b]; simpl; try discriminate; auto.
  intros H. apply andb_prop in H as [E R].
  apply Byte.byte_dec_bl in E. subst. f_equal. now apply IH.
Qed.

Lemma firstn_all_of (n : nat) (b pre : list Byte.byte) :
  firstn n b = pre -> b = pre ++ skipn n b.
Proof. intros <-. symmetry. apply firstn_skipn. Qed.

(** X17: [_sniff_mime_ext] says "image/png" exactly of the buffers that
    start with the eight bytes of the PNG signature and hold at least one
    byte more: the signature alone falls to the default. *)
Theorem sniff_png_iff (b : list Byte.byte) :
  fst (_sniff_mime_ext b) = "image/png"
  <-> exists x rest, b = png_magic ++ x :: rest.
Proof.
  split.
  - unfold _sniff_mime_ext.
    destruct ((3 <? length b)%nat && bytes_eqb (slice 0 3 b) jpeg_magic); [discriminate|].
    destruct ((8 <? length b)%nat && bytes_eqb (slice 0 8 b) png_magic) eqn:P.
    + intros _. apply andb_prop in P as [L E]. apply bytes_eqb_eq in E.
      change (firstn 8 b = png_magic) in E. apply firstn_all_of in E.
      apply Nat.ltb_lt in L.
      destruct (skipn 8 b) as [|x rest] eqn:S.
      * exfalso. assert (length (skipn 8 b) = 0%nat) by now rewrite S.
        rewrite length_skipn in H. lia.
      * exists x, rest. congruence.
    + repeat match goal with
             | |- context [if ?c then _ else _] => destruct c
             end; discriminate.
  - intros (x & rest & ->). reflexivity.
Qed.

(** X18: [_sniff_mime_ext] says "image/webp" exactly of the buffers made
    of "RIFF", four bytes, "WEBP" and at least one byte more. *)
Theorem sniff_webp_iff (b : list Byte.byte) :
  fst (_sniff_mime_ext b) = "image/webp"
  <-> exists s0 s1 s2 s3 x rest,
        b = ascii_bytes "RIFF" ++ [s0; s1; s2; s3] ++ ascii_bytes "WEBP" ++ x :: rest.
Proof.
  split.
  - unfold _sniff_mime_ext.
    destruct ((3 <? length b)%nat && bytes_eqb (slice 0 3 b) jpeg_magic); [discriminate|].
    destruct ((8 <? length b)%nat && bytes_eqb (slice 0 8 b) png_magic); [discriminate|].
    destruct ((12 <? length b)%nat && bytes_eqb (slice 0 4 b) (ascii_bytes "RIFF")
              && bytes_eqb (slice 8 12 b) (ascii_bytes "WEBP")) eqn:W.
    + intros _. apply andb_prop in W as [W E2]. apply andb_prop in W as [L E1].
      apply bytes_eqb_eq in E1, E2. apply Nat.ltb_lt in L.
      destruct b as [|b0 [|b1 [|b2 [|b3 [|s0 [|s1 [|s2 [|s3 [|b8 [|b9 [|b10 [|b11 [|x rest]]]]]]]]]]]]];
        simpl in L; try lia.
      unfold slice in E1, E2. cbn in E1, E2. inversion E1; inversion E2; subst.
      now exists s0, s1, s2, s3, x, rest.
    + repeat match goal with
             | |- context [if ?c then _ else _] => destruct c
             end; discriminate.
  - intros (s0 & s1 & s2 & s3 & x & rest & ->). reflexivity.
Qed.

(** X19: a buffer that starts with the three bytes FF D8 FF is taken for
    a JPEG, whatever follows and however short it is. *)
Theorem sniff_jpeg_prefix (rest : list Byte.byte) :
  _sniff_mime_ext (jpeg_magic ++ rest) = ("image/jpeg", "jpg").
Proof. destruct rest; reflexivity. Qed.

(** ** Hemispheres in the extractor *)

Lemma inline_south_negates (v : value) (x : float) :
  Inline._dms_to_decimal v (VStr "N") = Return x ->
  Inline._dms_to_decimal v (VStr "S") = Return (- x)%float.
Proof.
  unfold Inline._dms_to_decimal.
  destruct (Inline._parse_dms v) as [[[d m] s]|]; cbn [bind]; [|discriminate].
  intros H. inversion H. reflexivity.
Qed.

Lemma inline_west_negates (v : value) (x : float) :
  Inline._dms_to_decimal v (VStr "E") = Return x ->
  Inline._dms_to_decimal v (VStr "W") = Return (- x)%float.
Proof.
  unfold Inline._dms_to_decimal.
  destruct (Inline._parse_dms v) as [[[d m] s]|]; cbn [bind]; [|discriminate].
  intros H. inversion H. reflexivity.
Qed.

(** X20: on a flat tag map, turning the latitude reference from "N" to "S"
    negates the latitude the extractor returns and leaves the longitude,
    and turning the longitude reference from "E" to "W" negates the
    longitude and leaves the latitude. *)
Theorem extractor_hemispheres (lat_val lon_val : value) (lat lon : float) :
  extract_gps_from_exifread (bare_tags lat_val (VStr "N") lon_val (VStr "E"))
  = Return (coordinate lat lon (VStr "EXIFREAD")) ->
  extract_gps_from_exifread (bare_tags lat_val (VStr "S") lon_val (VStr "E"))
  = Return (coordinate (- lat) lon (VStr "EXIFREAD"))
  /\ extract_gps_from_exifread (bare_tags lat_val (VStr "N") lon_val (VStr "W"))
     = Return (coordinate lat (- lon) (VStr "EXIFREAD")).
Proof.
  rewrite !bare_extract.
  destruct (Inline._dms_to_decimal lat_val (VStr "N")) as [x|] eqn:A;
    cbn [bind try_except]; [|discriminate].
  destruct (Inline._dms_to_decimal lon_val (VStr "E")) as [y|] eqn:B;
    cbn [bind try_except]; [|discriminate].
  intros H. inversion H; subst.
  rewrite (inline_south_negates _ _ A), (inline_west_negates _ _ B).
  split; reflexivity.
Qed.

Lemma extractor_hemispheres_witness :
  extract_gps_from_exifread
    (bare_tags (VStr "48, 51, 179/100") (VStr "S") (VStr "2, 21, 3/100") (VStr "E"))
  = Return (coordinate (- paris_latitude) paris_longitude (VStr "EXIFREAD"))
  /\ extract_gps_from_exifread
       (bare_tags (VStr "48, 51, 179/100") (VStr "N") (VStr "2, 21, 3/100") (VStr "W"))
     = Return (coordinate paris_latitude (- paris_longitude) (VStr "EXIFREAD")).
Proof.
  apply (extractor_hemispheres (VStr "48, 51, 179/100") (VStr "2, 21, 3/100")).
  vm_compute. reflexivity.
Defined.
